(** * HeadachingQuotes: the quote-of-the-day page script, [js/app.js]

    A shallow embedding of the script and the properties of its two
    selectors (the daily hash selector and the repeat-avoiding random
    selector) and of the display path around them.

    Conventions of the embedding.
    - A JavaScript string is the list of its UTF-16 code units, each an
      integer in [0, 65536) ([charCodeAt] reads one of them).
    - Every JavaScript Number the script computes is an integer of small
      magnitude, or the product [Math.random() * quotes.length]; integers
      are modelled in [Z] (lemma [hash_step_safe_integer] shows they stay
      far inside the range where double arithmetic is exact) and the one
      non-integral product is modelled with its IEEE-754 rounding.
    - The page (the DOM nodes the script touches, its closure variables,
      the pending callbacks) is an explicit state threaded through a small
      state-and-exception monad; an exception keeps the effects made
      before it was thrown, as in JavaScript. The four elements looked up
      at lines 4-7 are taken to exist in the document.
    - [Math.random()] is an oracle: a function from the number of calls
      made so far to the double returned. The [do ... while] loop runs on
      fuel, and the statements about it are made for every fuel that
      covers 20 iterations. *)

From Stdlib Require Import ZArith List String Ascii Bool Lia.
From Stdlib Require Import DecimalString.
From Stdlib Require DecimalPos DecimalZ.
Import ListNotations.

Local Open Scope Z_scope.

(** ** JavaScript values used by the script *)

Module JS.

(** A string: its UTF-16 code units. *)
Definition jsstring := list Z.

Definition code_unit_ok (c : Z) : Prop := 0 <= c < 65536.
Definition wf_string (s : jsstring) : Prop := Forall code_unit_ok s.

(** An ASCII literal of the source as a JavaScript string. *)
Definition lit (s : string) : jsstring :=
  map (fun a => Z.of_N (N_of_ascii a)) (list_ascii_of_string s).

Definition string_eqb (a b : jsstring) : bool :=
  if list_eq_dec Z.eq_dec a b then true else false.

(** [ToInt32] on an integral Number: reduce modulo 2^32, then read the
    result as a signed two's-complement value. *)
Definition toInt32 (x : Z) : Z :=
  let int32bit := x mod 2 ^ 32 in
  if 2 ^ 31 <=? int32bit then int32bit - 2 ^ 32 else int32bit.

(** [a << n]: both operands go through the 32-bit conversions, the shift
    count is masked to five bits, the result is a signed 32-bit value. *)
Definition shl (a n : Z) : Z :=
  toInt32 (Z.shiftl (toInt32 a) (Z.land (n mod 2 ^ 32) 31)).

(** [a | b] on the 32-bit conversions of the operands. *)
Definition bor (a b : Z) : Z := Z.lor (toInt32 a) (toInt32 b).

Definition Math_abs (x : Z) : Z := Z.abs x.

(** A Number that is either an integer or [NaN]. *)
Inductive number : Type :=
| Num (z : Z)
| NaN.

(** [a % b] for integral operands: the remainder takes the sign of the
    dividend, and a zero divisor gives [NaN]. *)
Definition rem (a b : Z) : number :=
  if b =? 0 then NaN else Num (Z.rem a b).

(** [String.prototype.slice(start, end)]. *)
Definition slice (s : jsstring) (start stop : Z) : jsstring :=
  let len := Z.of_nat (List.length s) in
  let from := if start <? 0 then Z.max (len + start) 0 else Z.min start len in
  let to := if stop <? 0 then Z.max (len + stop) 0 else Z.min stop len in
  let span := Z.max (to - from) 0 in
  firstn (Z.to_nat span) (skipn (Z.to_nat from) s).

(** [String(n)] for an integral Number. *)
Definition String_of (n : Z) : jsstring :=
  lit (NilZero.string_of_int (Z.to_int n)).

(** [s.padStart(2, "0")]. *)
Definition padStart2 (s : jsstring) : jsstring :=
  repeat 48 (2 - List.length s) ++ s.

End JS.

Import JS.

(** ** The product [Math.random() * quotes.length] *)

Module Float.

(** [Math.random()] returns a double in [0, 1). Every such double is
    [mant / 2 ^ expo] for a 53-bit [mant] and [53 <= expo <= 1074]
    (normal doubles below 1 have [2 ^ 52 <= mant]; subnormal ones have
    [expo = 1074]), and every such pair is a double in [0, 1). *)
Definition in_unit_range (m e : Z) : bool :=
  (0 <=? m) && (m <? 2 ^ 53) && (53 <=? e) && (e <=? 1074).

Record unit_double : Type := {
  mant : Z;
  expo : Z;
  unit_double_ok : in_unit_range mant expo = true
}.

(** A non-negative double as a numerator over a power of two. *)
Record dyadic : Type := {
  num : Z;
  scale : Z
}.

(** Round-to-nearest, ties-to-even, of a non-negative integer to 53
    significant bits: numerators below [2 ^ 53] are kept, larger ones lose
    their [b] low bits. *)
Definition round53 (n : Z) : Z :=
  let b := Z.log2 n - 52 in
  if b <=? 0 then n
  else
    let q := Z.shiftr n b in
    let r := n mod 2 ^ b in
    let half := 2 ^ (b - 1) in
    let q' := if (half <? r) || ((r =? half) && Z.odd q) then q + 1 else q in
    q' * 2 ^ b.

(** [r * len] in double arithmetic, for an integral [len] (itself exact
    as a double): the exact product is [mant * len / 2 ^ expo], and the
    result is its rounding. *)
Definition mul (r : unit_double) (len : Z) : dyadic :=
  {| num := round53 (mant r * len); scale := expo r |}.

Definition Math_floor (x : dyadic) : Z := num x / 2 ^ scale x.

End Float.

(** ** The daily selector *)

(** The loop of [hashString], lines 17-22: the value of [hash] at exit. *)
Definition hashLoop (str : jsstring) : Z :=
  fold_left (fun hash char => bor (shl hash 5 - hash + char) 0) str 0.

(** [hashString], lines 16-24. *)
Definition hashString (str : jsstring) : Z := Math_abs (hashLoop str).

(** The UTC calendar date read by [todayString] from [new Date()]:
    [getUTCFullYear()], [getUTCMonth()] (0 to 11), [getUTCDate()]. *)
Record utc_date : Type := {
  utcFullYear : Z;
  utcMonth : Z;
  utcDate : Z
}.

(** [todayString], lines 29-34. *)
Definition todayString (d : utc_date) : jsstring :=
  String_of (utcFullYear d) ++ lit "-" ++
  padStart2 (String_of (utcMonth d + 1)) ++ lit "-" ++
  padStart2 (String_of (utcDate d)).

(** The expression of [getDailyIndex], line 40, as a function of the date
    key and of [quotes.length]. *)
Definition dailyIndex (dateKey : jsstring) (count : Z) : number :=
  rem (hashString dateKey) count.

(** ** The page *)

(** A quote record of [QUOTES_DATA]; [album] may be absent. *)
Record Quote : Type := {
  text : jsstring;
  song : jsstring;
  artist : jsstring;
  album : option jsstring
}.

(** The array [quotes]: an entry is a quote, or [None] for a hole or a
    [null]/[undefined] entry. *)
Definition collection := list (option Quote).

(** [quotes[index]]: [None] stands for [undefined] (or [null]). *)
Definition getIndex (qs : collection) (index : number) : option Quote :=
  match index with
  | Num i =>
      if i <? 0 then None
      else match nth_error qs (Z.to_nat i) with
           | Some entry => entry
           | None => None
           end
  | NaN => None
  end.

(** A DOM element: its text and its class list (an ordered set). *)
Record element : Type := {
  textContent : jsstring;
  classList : list string
}.

Definition set_textContent (s : jsstring) (e : element) : element :=
  {| textContent := s; classList := classList e |}.

Definition classList_add (c : string) (e : element) : element :=
  {| textContent := textContent e;
     classList := if in_dec string_dec c (classList e) then classList e
                  else classList e ++ [c] |}.

Definition classList_remove (c : string) (e : element) : element :=
  {| textContent := textContent e;
     classList := filter (fun x => negb (String.eqb x c)) (classList e) |}.

(** The two function values the script hands to the browser for later:
    the [setTimeout] callback of line 68, closed over [quote], and the
    [requestAnimationFrame] callback of line 76. *)
Inductive callback : Type :=
| SwapText (quote : Quote)
| MakeVisible.

(** The selectors, for the record of which of them ran. *)
Inductive selector : Type :=
| DailySelector
| RandomSelector.

Record page : Type := {
  (* DOM nodes, lines 4-7 *)
  quoteText : element;
  quoteCredit : element;
  dailyLabel : element;
  (* closure variables, lines 9-10 *)
  quotes : collection;
  isDaily : bool;
  (* listeners registered at lines 99 and 103 *)
  shuffleClickListener : bool;
  keydownListener : bool;
  (* callbacks waiting in the browser, oldest first; timers with delay *)
  timers : list (callback * Z);
  frames : list callback;
  (* [defaultPrevented] of the event being dispatched *)
  defaultPrevented : bool;
  (* how many times [Math.random()] has been called *)
  randomDraws : nat;
  (* ghost: the selector calls made so far, oldest first *)
  selectorCalls : list selector
}.

(** ** Computations of the script *)

Inductive exn : Type :=
| TypeError.

Inductive outcome (A : Type) : Type :=
| Return (a : A)
| Throw (e : exn)
| OutOfFuel.

Arguments Return {A} a.
Arguments Throw {A} e.
Arguments OutOfFuel {A}.

Definition js (A : Type) : Type := page -> outcome A * page.

Definition ret {A : Type} (a : A) : js A := fun st => (Return a, st).

Definition bind {A B : Type} (m : js A) (k : A -> js B) : js B :=
  fun st =>
    match m st with
    | (Return a, st') => k a st'
    | (Throw e, st') => (Throw e, st')
    | (OutOfFuel, st') => (OutOfFuel, st')
    end.

Definition throw {A : Type} (e : exn) : js A := fun st => (Throw e, st).
Definition out_of_fuel {A : Type} : js A := fun st => (OutOfFuel, st).
Definition get : js page := fun st => (Return st, st).
Definition modify (f : page -> page) : js unit := fun st => (Return tt, f st).

Declare Scope js_scope.
Delimit Scope js_scope with js.
Notation "x <- m ;; k" := (bind m (fun x => k))
  (at level 61, m at next level, right associativity) : js_scope.
Notation "m ;; k" := (bind m (fun _ => k))
  (at level 61, right associativity) : js_scope.
Local Open Scope js_scope.

(** Field updates of the page. *)

Definition set_quoteText (v : element) (st : page) : page :=
  {| quoteText := v;
     quoteCredit := quoteCredit st;
     dailyLabel := dailyLabel st;
     quotes := quotes st;
     isDaily := isDaily st;
     shuffleClickListener := shuffleClickListener st;
     keydownListener := keydownListener st;
     timers := timers st;
     frames := frames st;
     defaultPrevented := defaultPrevented st;
     randomDraws := randomDraws st;
     selectorCalls := selectorCalls st |}.

Definition set_quoteCredit (v : element) (st : page) : page :=
  {| quoteText := quoteText st;
     quoteCredit := v;
     dailyLabel := dailyLabel st;
     quotes := quotes st;
     isDaily := isDaily st;
     shuffleClickListener := shuffleClickListener st;
     keydownListener := keydownListener st;
     timers := timers st;
     frames := frames st;
     defaultPrevented := defaultPrevented st;
     randomDraws := randomDraws st;
     selectorCalls := selectorCalls st |}.

Definition set_dailyLabel (v : element) (st : page) : page :=
  {| quoteText := quoteText st;
     quoteCredit := quoteCredit st;
     dailyLabel := v;
     quotes := quotes st;
     isDaily := isDaily st;
     shuffleClickListener := shuffleClickListener st;
     keydownListener := keydownListener st;
     timers := timers st;
     frames := frames st;
     defaultPrevented := defaultPrevented st;
     randomDraws := randomDraws st;
     selectorCalls := selectorCalls st |}.

Definition set_quotes (v : collection) (st : page) : page :=
  {| quoteText := quoteText st;
     quoteCredit := quoteCredit st;
     dailyLabel := dailyLabel st;
     quotes := v;
     isDaily := isDaily st;
     shuffleClickListener := shuffleClickListener st;
     keydownListener := keydownListener st;
     timers := timers st;
     frames := frames st;
     defaultPrevented := defaultPrevented st;
     randomDraws := randomDraws st;
     selectorCalls := selectorCalls st |}.

Definition set_isDaily (v : bool) (st : page) : page :=
  {| quoteText := quoteText st;
     quoteCredit := quoteCredit st;
     dailyLabel := dailyLabel st;
     quotes := quotes st;
     isDaily := v;
     shuffleClickListener := shuffleClickListener st;
     keydownListener := keydownListener st;
     timers := timers st;
     frames := frames st;
     defaultPrevented := defaultPrevented st;
     randomDraws := randomDraws st;
     selectorCalls := selectorCalls st |}.

Definition set_shuffleClickListener (v : bool) (st : page) : page :=
  {| quoteText := quoteText st;
     quoteCredit := quoteCredit st;
     dailyLabel := dailyLabel st;
     quotes := quotes st;
     isDaily := isDaily st;
     shuffleClickListener := v;
     keydownListener := keydownListener st;
     timers := timers st;
     frames := frames st;
     defaultPrevented := defaultPrevented st;
     randomDraws := randomDraws st;
     selectorCalls := selectorCalls st |}.

Definition set_keydownListener (v : bool) (st : page) : page :=
  {| quoteText := quoteText st;
     quoteCredit := quoteCredit st;
     dailyLabel := dailyLabel st;
     quotes := quotes st;
     isDaily := isDaily st;
     shuffleClickListener := shuffleClickListener st;
     keydownListener := v;
     timers := timers st;
     frames := frames st;
     defaultPrevented := defaultPrevented st;
     randomDraws := randomDraws st;
     selectorCalls := selectorCalls st |}.

Definition set_timers (v : list (callback * Z)) (st : page) : page :=
  {| quoteText := quoteText st;
     quoteCredit := quoteCredit st;
     dailyLabel := dailyLabel st;
     quotes := quotes st;
     isDaily := isDaily st;
     shuffleClickListener := shuffleClickListener st;
     keydownListener := keydownListener st;
     timers := v;
     frames := frames st;
     defaultPrevented := defaultPrevented st;
     randomDraws := randomDraws st;
     selectorCalls := selectorCalls st |}.

Definition set_frames (v : list callback) (st : page) : page :=
  {| quoteText := quoteText st;
     quoteCredit := quoteCredit st;
     dailyLabel := dailyLabel st;
     quotes := quotes st;
     isDaily := isDaily st;
     shuffleClickListener := shuffleClickListener st;
     keydownListener := keydownListener st;
     timers := timers st;
     frames := v;
     defaultPrevented := defaultPrevented st;
     randomDraws := randomDraws st;
     selectorCalls := selectorCalls st |}.

Definition set_defaultPrevented (v : bool) (st : page) : page :=
  {| quoteText := quoteText st;
     quoteCredit := quoteCredit st;
     dailyLabel := dailyLabel st;
     quotes := quotes st;
     isDaily := isDaily st;
     shuffleClickListener := shuffleClickListener st;
     keydownListener := keydownListener st;
     timers := timers st;
     frames := frames st;
     defaultPrevented := v;
     randomDraws := randomDraws st;
     selectorCalls := selectorCalls st |}.

Definition set_randomDraws (v : nat) (st : page) : page :=
  {| quoteText := quoteText st;
     quoteCredit := quoteCredit st;
     dailyLabel := dailyLabel st;
     quotes := quotes st;
     isDaily := isDaily st;
     shuffleClickListener := shuffleClickListener st;
     keydownListener := keydownListener st;
     timers := timers st;
     frames := frames st;
     defaultPrevented := defaultPrevented st;
     randomDraws := v;
     selectorCalls := selectorCalls st |}.

Definition set_selectorCalls (v : list selector) (st : page) : page :=
  {| quoteText := quoteText st;
     quoteCredit := quoteCredit st;
     dailyLabel := dailyLabel st;
     quotes := quotes st;
     isDaily := isDaily st;
     shuffleClickListener := shuffleClickListener st;
     keydownListener := keydownListener st;
     timers := timers st;
     frames := frames st;
     defaultPrevented := defaultPrevented st;
     randomDraws := randomDraws st;
     selectorCalls := v |}.

Section Script.

(** The values [Math.random()] returns, in call order. *)
Variable random : nat -> Float.unit_double.

(** The bound on loop iterations the embedding runs; lemma
    [randomLoop_fuel] shows that 20 is enough. *)
Variable fuel : nat.

Definition Math_random : js Float.unit_double :=
  st <- get;;
  modify (set_randomDraws (S (randomDraws st)));;
  ret (random (randomDraws st)).

Definition called (s : selector) : js unit :=
  st <- get;;
  modify (set_selectorCalls (selectorCalls st ++ [s])).

(** [getDailyIndex], lines 39-41; [today] is what [new Date()] reads. *)
Definition getDailyIndex (today : utc_date) : js number :=
  called DailySelector;;
  st <- get;;
  ret (dailyIndex (todayString today) (Z.of_nat (List.length (quotes st)))).

(** The [do ... while] loop of lines 50-53, entered with [attempts]. *)
Fixpoint randomLoop (n : nat) (currentText : jsstring) (attempts : Z)
  : js Z :=
  match n with
  | O => out_of_fuel
  | S n' =>
      st <- get;;
      r <- Math_random;;
      let idx :=
        Float.Math_floor (Float.mul r (Z.of_nat (List.length (quotes st)))) in
      let attempts := attempts + 1 in
      match getIndex (quotes st) (Num idx) with
      | None => throw TypeError
      | Some quote =>
          if string_eqb (text quote) currentText && (attempts <? 20)
          then randomLoop n' currentText attempts
          else ret idx
      end
  end.

(** [getRandomIndex], lines 46-55. *)
Definition getRandomIndex (currentText : jsstring) : js Z :=
  called RandomSelector;;
  st <- get;;
  if Z.of_nat (List.length (quotes st)) <=? 1 then ret 0
  else randomLoop fuel currentText 0.

(** [setTimeout(f, delay)] and [requestAnimationFrame(f)]. *)
Definition setTimeout (f : callback) (delay : Z) : js unit :=
  st <- get;;
  modify (set_timers (timers st ++ [(f, delay)])).

Definition requestAnimationFrame (f : callback) : js unit :=
  st <- get;;
  modify (set_frames (frames st ++ [f])).

Definition on_quoteText (f : element -> element) : js unit :=
  st <- get;;
  modify (set_quoteText (f (quoteText st))).

Definition on_quoteCredit (f : element -> element) : js unit :=
  st <- get;;
  modify (set_quoteCredit (f (quoteCredit st))).

Definition on_dailyLabel (f : element -> element) : js unit :=
  st <- get;;
  modify (set_dailyLabel (f (dailyLabel st))).

(** [displayQuote], lines 60-81. *)
Definition displayQuote (index : number) : js unit :=
  st <- get;;
  match getIndex (quotes st) index with
  | None => ret tt
  | Some quote =>
      on_quoteText (classList_remove "visible");;
      on_quoteCredit (classList_remove "visible");;
      setTimeout (SwapText quote) 300
  end.

(** The bodies of the two callbacks, lines 69-79 and 77-78. The test of
    line 72 is true when [album] is a non-empty string other than
    ["Single"]. *)
Definition runCallback (f : callback) : js unit :=
  match f with
  | SwapText quote =>
      on_quoteText (set_textContent ([8220] ++ text quote ++ [8221]));;
      on_quoteCredit
        (set_textContent (song quote ++ lit " " ++ [8212] ++ lit " "
                            ++ artist quote));;
      match album quote with
      | Some a =>
          if negb (string_eqb a []) && negb (string_eqb a (lit "Single"))
          then on_quoteCredit
                 (fun e => set_textContent
                             (textContent e ++ lit " (" ++ a ++ lit ")") e)
          else ret tt
      | None => ret tt
      end;;
      requestAnimationFrame MakeVisible
  | MakeVisible =>
      on_quoteText (classList_add "visible");;
      on_quoteCredit (classList_add "visible")
  end.

(** The browser runs the oldest pending timer, or the oldest pending
    animation-frame callback. *)
Definition fireTimeout : js unit :=
  st <- get;;
  match timers st with
  | [] => ret tt
  | (f, _) :: rest => modify (set_timers rest);; runCallback f
  end.

Definition fireFrame : js unit :=
  st <- get;;
  match frames st with
  | [] => ret tt
  | f :: rest => modify (set_frames rest);; runCallback f
  end.

(** [onShuffle], lines 86-91. *)
Definition onShuffle : js unit :=
  modify (set_isDaily false);;
  on_dailyLabel (set_textContent (lit "random"));;
  st <- get;;
  let currentText := slice (textContent (quoteText st)) 1 (-1) in
  index <- getRandomIndex currentText;;
  displayQuote (Num index).

(** A [keydown] event: its [key], and whether its [target] is
    [document.body]. *)
Record keyboard_event : Type := {
  key : jsstring;
  targetIsBody : bool
}.

(** The listener of lines 103-108. *)
Definition keydownHandler (e : keyboard_event) : js unit :=
  if string_eqb (key e) (lit " ") && targetIsBody e then
    modify (set_defaultPrevented true);;
    onShuffle
  else ret tt.

(** The script body, lines 9-10 and 93-108, run once when the page loads;
    [QUOTES_DATA] is [None] when the global is absent. *)
Definition script (QUOTES_DATA : option collection) (today : utc_date)
  : js unit :=
  modify (set_quotes (match QUOTES_DATA with Some qs => qs | None => [] end));;
  modify (set_isDaily true);;
  st <- get;;
  (if Z.of_nat (List.length (quotes st)) =? 0 then
     on_quoteText (set_textContent (lit "No quotes available yet."));;
     on_quoteText (classList_add "visible")
   else
     index <- getDailyIndex today;;
     displayQuote index;;
     modify (set_shuffleClickListener true));;
  modify (set_keydownListener true).

(** The browser delivers a click on the shuffle button, or a key press. *)
Definition click : js unit :=
  st <- get;;
  if shuffleClickListener st then onShuffle else ret tt.

Definition keydown (e : keyboard_event) : js unit :=
  modify (set_defaultPrevented false);;
  st <- get;;
  if keydownListener st then keydownHandler e else ret tt.

End Script.

(** The page as the HTML document gives it, before the script runs. *)
Definition loaded (qt qc dl : element) : page :=
  {| quoteText := qt; quoteCredit := qc; dailyLabel := dl;
     quotes := []; isDaily := true;
     shuffleClickListener := false; keydownListener := false;
     timers := []; frames := [];
     defaultPrevented := false; randomDraws := 0;
     selectorCalls := [] |}.

(** ** Reference definitions of the hash, in the words of the design *)

(** Truncation to the signed 32-bit two's-complement range. *)
Definition wrap32 (x : Z) : Z := (x + 2 ^ 31) mod 2 ^ 32 - 2 ^ 31.

(** One step, in the shift formulation: [(hash << 5) - hash + code] over
    the integers, then truncated. *)
Definition reference_step (hash code : Z) : Z :=
  wrap32 (Z.shiftl hash 5 - hash + code).

(** One step, in the multiplier formulation. *)
Definition reference_step31 (hash code : Z) : Z :=
  wrap32 (hash * 31 + code).

Definition reference_hash32 (str : jsstring) : Z :=
  fold_left reference_step str 0.

(** The absolute value, with the minimum signed value read as the
    non-negative number of the same 32 bits. *)
Definition reference_abs (h : Z) : Z :=
  if h =? - 2 ^ 31 then h mod 2 ^ 32 else Z.abs h.

Definition reference_hash (str : jsstring) : Z :=
  reference_abs (reference_hash32 str).

(** ** Vocabulary of the statements *)

(** Every entry of the array is a quote. *)
Definition all_present (qs : collection) : bool :=
  forallb (fun entry => match entry with Some _ => true | None => false end)
          qs.

Definition length_of (st : page) : Z := Z.of_nat (List.length (quotes st)).

(** What a run of the loop entered with [attempts] in page [st] leaves:
    it made [d] draws, at least one and at most up to the 20th attempt,
    and touched nothing else; a returned index holds a quote, whose text
    may equal [currentText] only at the 20th attempt; an exception comes
    from an entry of the array that is not a quote. *)
Definition loop_post (currentText : jsstring) (attempts : Z) (st : page)
  (res : outcome Z * page) : Prop :=
  exists d : nat,
    (1 <= d)%nat /\ attempts + Z.of_nat d <= 20 /\
    snd res = set_randomDraws (randomDraws st + d) st /\
    match fst res with
    | Return idx =>
        0 <= idx < length_of st /\
        exists quote, getIndex (quotes st) (Num idx) = Some quote /\
                      (text quote = currentText -> attempts + Z.of_nat d = 20)
    | Throw _ => all_present (quotes st) = false
    | OutOfFuel => False
    end.

(** Sample data. *)
Definition sample_quote (t : string) : Quote :=
  {| text := lit t; song := lit "Song"; artist := lit "Artist";
     album := Some (lit "Single") |}.

Definition sample_quotes : collection :=
  [Some (sample_quote "one"); Some (sample_quote "two");
   Some (sample_quote "three")].

Definition blank : element := {| textContent := []; classList := [] |}.

Definition sample_page (qs : collection) : page :=
  set_quotes qs (loaded blank blank blank).

(** An oracle that always answers 0, and one that walks through
    0, 1/4, 1/2, 3/4, 0, ... *)
Definition zero_double : Float.unit_double :=
  {| Float.mant := 0; Float.expo := 53; Float.unit_double_ok := eq_refl |}.

Definition quarter_double (k : Z) : Float.unit_double :=
  match k mod 4 with
  | 1 => {| Float.mant := 2 ^ 51; Float.expo := 53;
            Float.unit_double_ok := eq_refl |}
  | 2 => {| Float.mant := 2 ^ 52; Float.expo := 53;
            Float.unit_double_ok := eq_refl |}
  | 3 => {| Float.mant := 3 * 2 ^ 51; Float.expo := 53;
            Float.unit_double_ok := eq_refl |}
  | _ => zero_double
  end.

Definition always_zero (n : nat) : Float.unit_double := zero_double.
Definition quarters (n : nat) : Float.unit_double :=
  quarter_double (Z.of_nat n).

(** The album is present (neither absent nor empty) and is not the
    literal ["Single"]. *)
Definition album_named (quote : Quote) : Prop :=
  exists a, album quote = Some a /\ a <> [] /\ a <> lit "Single".

(** ["song — artist"], the credit without a parenthetical. *)
Definition plain_credit (quote : Quote) : jsstring :=
  song quote ++ lit " " ++ [8212] ++ lit " " ++ artist quote.

(** The credit the page shows once the timer callback for [quote] ran. *)
Definition rendered_credit (quote : Quote) (st : page) : jsstring :=
  textContent (quoteCredit (snd (runCallback (SwapText quote) st))).

(** The array has no quote at [index]: the index is not a number, or is
    out of range, or names an entry that is not a quote. *)
Definition no_quote_at (qs : collection) (index : number) : Prop :=
  match index with
  | NaN => True
  | Num i =>
      i < 0 \/ Z.of_nat (List.length qs) <= i \/
      nth_error qs (Z.to_nat i) = Some None
  end.

(** The global [QUOTES_DATA] is absent or is an empty array. *)
Definition no_data (QUOTES_DATA : option collection) : Prop :=
  QUOTES_DATA = None \/ QUOTES_DATA = Some [].

(** The space key pressed with the focus on the document body. *)
Definition space_on_body : keyboard_event :=
  {| key := lit " "; targetIsBody := true |}.

(** The text region of the empty page: the fallback message, visible. *)
Definition fallback (qt : element) : element :=
  classList_add "visible"
    (set_textContent (lit "No quotes available yet.") qt).

Definition sample_today : utc_date :=
  {| utcFullYear := 2024; utcMonth := 0; utcDate := 15 |}.

Definition abbey_road : Quote :=
  {| text := lit "Here comes the sun"; song := lit "Here Comes the Sun";
     artist := lit "The Beatles"; album := Some (lit "Abbey Road") |}.

(** The page once the script ran with no quotes: the fallback message is
    shown, only the key listener is registered. *)
Definition empty_page (qt qc dl : element) : page :=
  {| quoteText := fallback qt; quoteCredit := qc; dailyLabel := dl;
     quotes := []; isDaily := true;
     shuffleClickListener := false; keydownListener := true;
     timers := []; frames := [];
     defaultPrevented := false; randomDraws := 0;
     selectorCalls := [] |}.

(** That page after the space key was handled. *)
Definition empty_page_shuffled (qt qc dl : element) : page :=
  {| quoteText := fallback qt; quoteCredit := qc;
     dailyLabel := set_textContent (lit "random") dl;
     quotes := []; isDaily := false;
     shuffleClickListener := false; keydownListener := true;
     timers := []; frames := [];
     defaultPrevented := true; randomDraws := 0;
     selectorCalls := [RandomSelector] |}.

(** ** Vocabulary of the further statements *)

(** The code unit of a decimal digit, and numbers written with two and
    with four decimal digits. *)
Definition digit (n : Z) : Z := 48 + n.

Definition digits2 (n : Z) : jsstring := [digit (n / 10); digit (n mod 10)].

Definition digits4 (n : Z) : jsstring :=
  [digit (n / 1000); digit (n / 100 mod 10); digit (n / 10 mod 10);
   digit (n mod 10)].

(** What the getters of a [Date] return: a month from 0 to 11 and a day
    of the month from 1 to 31. *)
Definition valid_date (d : utc_date) : Prop :=
  0 <= utcMonth d <= 11 /\ 1 <= utcDate d <= 31.

(** A test holds of every integer from 0 up to [N], excluded. *)
Definition below (N : Z) (P : Z -> bool) : bool :=
  forallb (fun k => P (Z.of_nat k)) (seq 0 (Z.to_nat N)).

(** The polynomial in 31 of the code units, over the integers. *)
Definition polynomial31 (str : jsstring) : Z :=
  fold_left (fun h c => h * 31 + c) str 0.

(** The least 53-bit numerator [m] with [m * len >= i * 2 ^ 53]: the
    smallest double [m / 2 ^ 53] whose product with [len] reaches [i]. *)
Definition least_mant (i len : Z) : Z := (i * 2 ^ 53 + len - 1) / len.

(** The index drawn by iteration [k] (from 0) of a loop entered in page
    [st]. *)
Definition draw (random : nat -> Float.unit_double) (st : page) (k : nat)
  : Z :=
  Float.Math_floor
    (Float.mul (random (randomDraws st + k)%nat) (length_of st)).

(** The entry at [idx] is a quote with the text [currentText], or a quote
    with another text. *)
Definition repeats (qs : collection) (currentText : jsstring) (idx : Z)
  : Prop :=
  exists quote, getIndex qs (Num idx) = Some quote /\
                text quote = currentText.

Definition differs (qs : collection) (currentText : jsstring) (idx : Z)
  : Prop :=
  exists quote, getIndex qs (Num idx) = Some quote /\
                text quote <> currentText.

(** The content of the text region for a quote text: the text between
    curly quotation marks. *)
Definition quoted (t : jsstring) : jsstring := [8220] ++ t ++ [8221].

(** A region hidden (not carrying the class ["visible"]) or shown. *)
Definition hidden (e : element) : Prop := ~ In "visible"%string (classList e).
Definition shown (e : element) : Prop := In "visible"%string (classList e).

(** The page after [displayQuote(index)], then the timer callback, then
    the animation-frame callback. *)
Definition displayed_1 (index : number) (st : page) : page :=
  snd (displayQuote index st).
Definition displayed_2 (index : number) (st : page) : page :=
  snd (fireTimeout (displayed_1 index st)).
Definition displayed_3 (index : number) (st : page) : page :=
  snd (fireFrame (displayed_2 index st)).

(** What the browser can deliver to the page once the script ran. *)
Inductive event : Type :=
| Click
| Keydown (e : keyboard_event)
| TimerFires
| FrameFires.

Definition handle (random : nat -> Float.unit_double) (fuel : nat)
  (ev : event) : js unit :=
  match ev with
  | Click => click random fuel
  | Keydown e => keydown random fuel e
  | TimerFires => fireTimeout
  | FrameFires => fireFrame
  end.

(** The page after a sequence of events; a handler that throws leaves the
    page as it was at the throw, and the next event is handled. *)
Definition after (random : nat -> Float.unit_double) (fuel : nat)
  (evs : list event) (st : page) : page :=
  fold_left (fun st ev => snd (handle random fuel ev st)) evs st.

(** The page [onShuffle] leaves when it made [d] draws and, if it got as
    far as displaying, picked the quote [picked]. *)
Definition shuffled (st : page) (d : nat) (picked : option Quote) : page :=
  let st1 :=
    set_randomDraws (randomDraws st + d)
      (set_selectorCalls (selectorCalls st ++ [RandomSelector])
         (set_dailyLabel (set_textContent (lit "random") (dailyLabel st))
            (set_isDaily false st))) in
  match picked with
  | None => st1
  | Some quote =>
      set_timers (timers st1 ++ [(SwapText quote, 300)])
        (set_quoteCredit (classList_remove "visible" (quoteCredit st1))
           (set_quoteText (classList_remove "visible" (quoteText st1)) st1))
  end.

(** One event seen from outside: the page is left alone (up to the flag
    of the event), or shuffled, or the oldest timer or frame callback
    ran. *)
Inductive step (st : page) : page -> Prop :=
| step_idle (b : bool) : step st (set_defaultPrevented b st)
| step_shuffle (b : bool) (d : nat) (picked : option Quote) :
    (d <= 20)%nat ->
    (forall quote, picked = Some quote -> In (Some quote) (quotes st)) ->
    step st (shuffled (set_defaultPrevented b st) d picked)
| step_timer (f : callback) (delay : Z) (rest : list (callback * Z)) :
    timers st = (f, delay) :: rest ->
    step st (snd (runCallback f (set_timers rest st)))
| step_frame (f : callback) (rest : list callback) :
    frames st = f :: rest ->
    step st (snd (runCallback f (set_frames rest st))).

(** The pending callbacks are those the script schedules: timers swap in
    a quote of the collection after 300 ms, frame callbacks make the
    regions visible. *)
Definition pending_ok (st : page) : Prop :=
  (forall f delay, In (f, delay) (timers st) ->
     exists quote, f = SwapText quote /\ delay = 300 /\
                   In (Some quote) (quotes st)) /\
  (forall f, In f (frames st) -> f = MakeVisible).

(** The two text regions hold the texts of page [st0], or the text and
    the credit of one quote of the collection. *)
Definition shows_of (st0 st : page) : Prop :=
  (textContent (quoteText st) = textContent (quoteText st0) /\
   textContent (quoteCredit st) = textContent (quoteCredit st0)) \/
  (exists quote, In (Some quote) (quotes st) /\
                 textContent (quoteText st) = quoted (text quote) /\
                 textContent (quoteCredit st) = rendered_credit quote st).

(** The mode of the page: still as loaded, or switched to random, with
    the label saying so. *)
Definition mode_of (st0 st : page) : Prop :=
  (isDaily st = isDaily st0 /\ dailyLabel st = dailyLabel st0) \/
  (isDaily st = false /\
   dailyLabel st = set_textContent (lit "random") (dailyLabel st0)).

(** A page load followed by events. *)
Definition session (random : nat -> Float.unit_double) (fuel : nat)
  (QUOTES_DATA : option collection) (today : utc_date) (qt qc dl : element)
  (evs : list event) : page :=
  after random fuel evs (snd (script QUOTES_DATA today (loaded qt qc dl))).

(** The collection the script works on. *)
Definition data_of (QUOTES_DATA : option collection) : collection :=
  match QUOTES_DATA with
  | Some qs => qs
  | None => []
  end.

(** The page once the script ran on a non-empty collection whose entry
    at the daily index is [quote]. *)
Definition daily_page (qs : collection) (quote : Quote) (qt qc dl : element)
  : page :=
  {| quoteText := classList_remove "visible" qt;
     quoteCredit := classList_remove "visible" qc;
     dailyLabel := dl;
     quotes := qs; isDaily := true;
     shuffleClickListener := true; keydownListener := true;
     timers := [(SwapText quote, 300)]; frames := [];
     defaultPrevented := false; randomDraws := 0;
     selectorCalls := [DailySelector] |}.

(** A page with no quotes showing the fallback message: nothing pending,
    no click listener, no draw made. *)
Definition empty_state (qt qc : element) (st : page) : Prop :=
  quotes st = [] /\ shuffleClickListener st = false /\
  timers st = [] /\ frames st = [] /\
  quoteText st = fallback qt /\ quoteCredit st = qc /\
  randomDraws st = 0%nat.

(** * Properties *)

(** ** 32-bit arithmetic *)

Lemma toInt32_range (x : Z) : - 2 ^ 31 <= toInt32 x < 2 ^ 31.
Proof.
  unfold toInt32.
  pose proof (Z.mod_pos_bound x (2 ^ 32) ltac:(lia)) as Hm.
  destruct (2 ^ 31 <=? x mod 2 ^ 32) eqn:E;
    [apply Z.leb_le in E | apply Z.leb_gt in E]; lia.
Qed.

Lemma toInt32_congr (x : Z) : exists k, toInt32 x = x + k * 2 ^ 32.
Proof.
  unfold toInt32.
  pose proof (Z.div_mod x (2 ^ 32) ltac:(lia)) as Hd.
  destruct (2 ^ 31 <=? x mod 2 ^ 32).
  - exists (- (x / 2 ^ 32) - 1). lia.
  - exists (- (x / 2 ^ 32)). lia.
Qed.

Lemma wrap32_range (x : Z) : - 2 ^ 31 <= wrap32 x < 2 ^ 31.
Proof.
  unfold wrap32.
  pose proof (Z.mod_pos_bound (x + 2 ^ 31) (2 ^ 32) ltac:(lia)). lia.
Qed.

Lemma wrap32_congr (x : Z) : exists k, wrap32 x = x + k * 2 ^ 32.
Proof.
  unfold wrap32.
  pose proof (Z.div_mod (x + 2 ^ 31) (2 ^ 32) ltac:(lia)) as Hd.
  exists (- ((x + 2 ^ 31) / 2 ^ 32)). lia.
Qed.

(** Two values of the signed 32-bit range that differ by a multiple of
    2^32 are equal. *)
Lemma int32_unique (a b k : Z) :
  - 2 ^ 31 <= a < 2 ^ 31 -> - 2 ^ 31 <= b < 2 ^ 31 ->
  a = b + k * 2 ^ 32 -> a = b.
Proof. intros Ha Hb E. assert (k = 0) by lia. subst k. lia. Qed.

Lemma toInt32_small (x : Z) : - 2 ^ 31 <= x < 2 ^ 31 -> toInt32 x = x.
Proof.
  intros Hx. destruct (toInt32_congr x) as [k Hk].
  apply (int32_unique _ _ k); auto using toInt32_range.
Qed.

Lemma toInt32_wrap32 (x : Z) : toInt32 x = wrap32 x.
Proof.
  destruct (toInt32_congr x) as [k Hk], (wrap32_congr x) as [j Hj].
  apply (int32_unique _ _ (k - j));
    auto using toInt32_range, wrap32_range. lia.
Qed.

Lemma shl_5 (h : Z) : shl h 5 = toInt32 (toInt32 h * 32).
Proof.
  unfold shl. change (Z.land (5 mod 2 ^ 32) 31) with 5.
  rewrite Z.shiftl_mul_pow2 by lia. reflexivity.
Qed.

Lemma bor_0 (x : Z) : bor x 0 = toInt32 x.
Proof. unfold bor. change (toInt32 0) with 0. apply Z.lor_0_r. Qed.

(** The loop body of [hashString] computes the reference step. *)
Lemma hash_step_reference (hash char : Z) :
  bor (shl hash 5 - hash + char) 0 = reference_step hash char.
Proof.
  rewrite bor_0, shl_5. unfold reference_step.
  rewrite Z.shiftl_mul_pow2 by lia. change (2 ^ 5) with 32.
  destruct (toInt32_congr hash) as [k1 H1].
  destruct (toInt32_congr (toInt32 hash * 32)) as [k2 H2].
  destruct (toInt32_congr (toInt32 (toInt32 hash * 32) - hash + char))
    as [k3 H3].
  destruct (wrap32_congr (hash * 32 - hash + char)) as [k4 H4].
  apply (int32_unique _ _ (k3 + k2 + 32 * k1 - k4));
    auto using toInt32_range, wrap32_range. lia.
Qed.

Lemma reference_step_31 (hash code : Z) :
  reference_step hash code = reference_step31 hash code.
Proof.
  unfold reference_step, reference_step31.
  rewrite Z.shiftl_mul_pow2 by lia. f_equal. lia.
Qed.

Lemma hashLoop_reference (str : jsstring) :
  hashLoop str = reference_hash32 str.
Proof.
  unfold hashLoop, reference_hash32. generalize 0 at 2 3.
  induction str as [|c str IH]; intros h; cbn [fold_left]; [reflexivity|].
  rewrite hash_step_reference. apply IH.
Qed.

Lemma reference_hash32_range (str : jsstring) :
  - 2 ^ 31 <= reference_hash32 str < 2 ^ 31.
Proof.
  unfold reference_hash32.
  assert (H0 : - 2 ^ 31 <= 0 < 2 ^ 31) by lia. revert H0. generalize 0.
  induction str as [|c str IH]; intros h Hh; cbn [fold_left]; [exact Hh|].
  apply IH, wrap32_range.
Qed.

Lemma reference_abs_abs (h : Z) : reference_abs h = Z.abs h.
Proof.
  unfold reference_abs. destruct (h =? - 2 ^ 31) eqn:E; [|reflexivity].
  apply Z.eqb_eq in E. subst h. reflexivity.
Qed.

(** For a string of UTF-16 code units every intermediate Number of the
    loop body is an integer below 2^53 in magnitude, so the double
    arithmetic of the script is exact on it. *)
Lemma hash_step_safe_integer (hash char : Z) :
  - 2 ^ 31 <= hash < 2 ^ 31 -> code_unit_ok char ->
  Z.abs (shl hash 5) < 2 ^ 53 /\
  Z.abs (shl hash 5 - hash) < 2 ^ 53 /\
  Z.abs (shl hash 5 - hash + char) < 2 ^ 53.
Proof.
  intros Hh Hc. unfold code_unit_ok in Hc. rewrite shl_5.
  pose proof (toInt32_range (toInt32 hash * 32)). lia.
Qed.

Lemma hashString_nonneg (str : jsstring) : 0 <= hashString str.
Proof. apply Z.abs_nonneg. Qed.

Lemma hashString_le (str : jsstring) : hashString str <= 2 ^ 31.
Proof.
  unfold hashString, Math_abs. rewrite hashLoop_reference.
  pose proof (reference_hash32_range str). lia.
Qed.

(** ** The daily selector *)

Lemma rem_in_range (a b : Z) :
  0 <= a -> 0 < b -> exists i, rem a b = Num i /\ 0 <= i < b.
Proof.
  intros Ha Hb. unfold rem.
  destruct (b =? 0) eqn:E; [apply Z.eqb_eq in E; lia|].
  exists (Z.rem a b). split; [reflexivity|].
  apply Z.rem_bound_pos; assumption.
Qed.

(** C1. For every date-key string and every count above zero, the daily
    selector (the hash of the key reduced modulo the count, as
    [getDailyIndex] computes it) is an integer [i] with [0 <= i < count]. *)
Theorem dailyIndex_in_range (dateKey : jsstring) (count : Z) :
  0 < count ->
  exists i, dailyIndex dateKey count = Num i /\ 0 <= i < count.
Proof.
  intros Hc. unfold dailyIndex.
  apply rem_in_range; [apply hashString_nonneg | exact Hc].
Qed.

Lemma dailyIndex_in_range_witness :
  0 < 7 /\ exists i, dailyIndex (lit "2024-01-15") 7 = Num i /\ 0 <= i < 7.
Proof. split; [lia | apply (dailyIndex_in_range (lit "2024-01-15") 7); lia]. Defined.

(** C2. [hashString] is the reference hash: start at 0, for each code in
    order take [(hash << 5) - hash + code] truncated to signed 32 bits
    (the same as [hash * 31 + code] truncated), then the absolute value;
    and when the 32-bit hash is the minimum signed value the result is
    2^31. *)
Theorem hashString_reference (str : jsstring) :
  hashString str = reference_hash str /\
  reference_hash32 str = fold_left reference_step31 str 0 /\
  (reference_hash32 str = - 2 ^ 31 -> hashString str = 2 ^ 31).
Proof.
  assert (E : hashString str = reference_hash str).
  { unfold hashString, reference_hash, Math_abs.
    rewrite hashLoop_reference, reference_abs_abs. reflexivity. }
  split; [exact E|]. split.
  - clear E. unfold reference_hash32. generalize 0.
    induction str as [|c s IH]; intros h; cbn [fold_left]; [reflexivity|].
    rewrite reference_step_31. apply IH.
  - intros Hmin. rewrite E. unfold reference_hash. rewrite Hmin. reflexivity.
Qed.

Lemma hashString_reference_witness :
  reference_hash32 [2325; 9; 30; 12; 2] = - 2 ^ 31 /\
  hashString [2325; 9; 30; 12; 2] = 2 ^ 31.
Proof.
  split; [reflexivity|].
  apply (hashString_reference [2325; 9; 30; 12; 2]). reflexivity.
Defined.

(** [getDailyIndex] on a non-empty collection: a valid index, and the
    page unchanged but for the record of the call. *)
Lemma getDailyIndex_valid (today : utc_date) (st : page) :
  0 < length_of st ->
  exists i,
    getDailyIndex today st
    = (Return (Num i),
       set_selectorCalls (selectorCalls st ++ [DailySelector]) st) /\
    0 <= i < length_of st.
Proof.
  intros Hlen.
  destruct (rem_in_range (hashString (todayString today)) (length_of st)
              (hashString_nonneg _) Hlen) as (i & Hi & Hrange).
  exists i. split; [|exact Hrange].
  unfold getDailyIndex, called, bind, get, modify, ret, dailyIndex.
  cbn [quotes set_selectorCalls]. unfold length_of in Hi. rewrite Hi.
  reflexivity.
Qed.

Example todayString_sample : todayString sample_today = lit "2024-01-15".
Proof. reflexivity. Qed.

Example hashString_sample : hashString (lit "2024-01-15") = 613341597.
Proof. reflexivity. Qed.

(** ** The random draw *)

Lemma unit_double_bounds (r : Float.unit_double) :
  0 <= Float.mant r < 2 ^ 53 /\ 53 <= Float.expo r <= 1074.
Proof.
  pose proof (Float.unit_double_ok r) as H. unfold Float.in_unit_range in H.
  repeat (apply andb_prop in H; destruct H as [H ?]).
  apply Z.leb_le in H. repeat match goal with
  | H : (_ <=? _) = true |- _ => apply Z.leb_le in H
  | H : (_ <? _) = true |- _ => apply Z.ltb_lt in H
  end. lia.
Qed.

(** Rounding moves a numerator up by at most half a unit in the last
    place kept. *)
Lemma round53_bounds (n : Z) :
  0 <= n ->
  0 <= Float.round53 n /\
  (Z.log2 n - 52 <= 0 -> Float.round53 n = n) /\
  (0 < Z.log2 n - 52 -> Float.round53 n <= n + 2 ^ (Z.log2 n - 52 - 1)).
Proof.
  intros Hn. unfold Float.round53.
  set (b := Z.log2 n - 52).
  destruct (b <=? 0) eqn:Eb; [apply Z.leb_le in Eb | apply Z.leb_gt in Eb].
  - repeat split; [exact Hn | lia].
  - rewrite Z.shiftr_div_pow2 by lia.
    assert (Hpow : 2 ^ b = 2 * 2 ^ (b - 1)).
    { replace b with (Z.succ (b - 1)) at 1 by lia.
      apply Z.pow_succ_r. lia. }
    assert (Hhalf : 0 < 2 ^ (b - 1)) by (apply Z.pow_pos_nonneg; lia).
    pose proof (Z.div_mod n (2 ^ b) ltac:(lia)) as Hdm.
    pose proof (Z.mod_pos_bound n (2 ^ b) ltac:(lia)) as Hmod.
    assert (Hq : 0 <= n / 2 ^ b) by (apply Z.div_pos; lia).
    set (q := n / 2 ^ b) in *. set (r := n mod 2 ^ b) in *.
    set (half := 2 ^ (b - 1)) in *.
    destruct ((half <? r) || ((r =? half) && Z.odd q)) eqn:Eup.
    + assert (Hr : half <= r).
      { apply orb_prop in Eup. destruct Eup as [E | E].
        - apply Z.ltb_lt in E. lia.
        - apply andb_prop in E. destruct E as [E _].
          apply Z.eqb_eq in E. lia. }
      repeat split; [nia | lia | intros _; nia].
    + repeat split; [nia | lia | intros _; nia].
Qed.

(** The rounded product of a double below 1 and a positive integer stays
    below that integer: rounding cannot reach it. *)
Lemma round53_mul_lt (m len : Z) :
  0 <= m < 2 ^ 53 -> 0 < len ->
  0 <= Float.round53 (m * len) < len * 2 ^ 53.
Proof.
  intros Hm Hlen.
  assert (Hn : 0 <= m * len) by nia.
  assert (Hub : m * len <= len * 2 ^ 53 - len) by nia.
  destruct (round53_bounds (m * len) Hn) as (H0 & Hexact & Hround).
  split; [exact H0|].
  destruct (Z_le_gt_dec (Z.log2 (m * len) - 52) 0) as [Hb | Hb].
  - rewrite (Hexact Hb). lia.
  - specialize (Hround ltac:(lia)).
    assert (Hpos : 0 < m * len).
    { destruct (Z.eq_dec (m * len) 0) as [E | E]; [|lia].
      rewrite E in Hb. simpl in Hb. lia. }
    destruct (Z.log2_spec (m * len) Hpos) as [Hlo _].
    set (b := Z.log2 (m * len) - 52) in *.
    assert (Hsplit : 2 ^ Z.log2 (m * len) = 2 ^ (b - 1) * 2 ^ 53).
    { rewrite <- Z.pow_add_r by lia. f_equal. unfold b. lia. }
    assert (Hhalf : 2 ^ (b - 1) < len) by nia.
    lia.
Qed.

(** [Math.floor(Math.random() * length)] is an index of the array. *)
Lemma floor_random_in_range (r : Float.unit_double) (len : Z) :
  0 < len -> 0 <= Float.Math_floor (Float.mul r len) < len.
Proof.
  intros Hlen. destruct (unit_double_bounds r) as [Hm He].
  unfold Float.Math_floor, Float.mul. cbn [Float.num Float.scale].
  pose proof (round53_mul_lt _ _ Hm Hlen) as [H0 H1].
  assert (Hp : 2 ^ 53 <= 2 ^ Float.expo r)
    by (apply Z.pow_le_mono_r; lia).
  assert (Hp0 : 0 < 2 ^ Float.expo r) by lia.
  split.
  - apply Z.div_pos; lia.
  - apply Z.div_lt_upper_bound; [exact Hp0|]. nia.
Qed.

(** ** The random selector *)

Lemma string_eqb_eq (a b : jsstring) : string_eqb a b = true <-> a = b.
Proof.
  unfold string_eqb. destruct (list_eq_dec Z.eq_dec a b); split;
    congruence.
Qed.

Lemma getIndex_present (qs : collection) (i : Z) :
  all_present qs = true -> 0 <= i < Z.of_nat (List.length qs) ->
  exists quote, getIndex qs (Num i) = Some quote.
Proof.
  intros Hall Hi. unfold getIndex.
  destruct (i <? 0) eqn:E; [apply Z.ltb_lt in E; lia|].
  destruct (nth_error qs (Z.to_nat i)) as [entry|] eqn:En.
  - unfold all_present in Hall. rewrite forallb_forall in Hall.
    specialize (Hall entry (nth_error_In _ _ En)).
    destruct entry as [quote|]; [eauto | discriminate].
  - apply nth_error_None in En. lia.
Qed.

(** One iteration of the loop, spelled out. *)
Lemma randomLoop_S (random : nat -> Float.unit_double) (n : nat)
  (currentText : jsstring) (attempts : Z) (st : page) :
  randomLoop random (S n) currentText attempts st =
  let st1 := set_randomDraws (S (randomDraws st)) st in
  let idx := Float.Math_floor
               (Float.mul (random (randomDraws st)) (length_of st)) in
  match getIndex (quotes st) (Num idx) with
  | None => (Throw TypeError, st1)
  | Some quote =>
      if string_eqb (text quote) currentText && (attempts + 1 <? 20)
      then randomLoop random n currentText (attempts + 1) st1
      else (Return idx, st1)
  end.
Proof.
  cbn -[Float.Math_floor Float.mul getIndex string_eqb Z.ltb Z.add].
  unfold bind, get, Math_random, bind, get, modify, ret, length_of.
  cbn -[Float.Math_floor Float.mul getIndex string_eqb Z.ltb Z.add randomLoop].
  destruct (getIndex _ _) as [quote|]; [|reflexivity].
  destruct (string_eqb _ _ && _); reflexivity.
Qed.

Lemma randomLoop_post (random : nat -> Float.unit_double) (n : nat) :
  forall (currentText : jsstring) (attempts : Z) (st : page),
    0 < length_of st -> 0 <= attempts < 20 ->
    (Z.to_nat (20 - attempts) <= n)%nat ->
    loop_post currentText attempts st
      (randomLoop random n currentText attempts st).
Proof.
  induction n as [|n IH]; intros cur attempts st Hlen Hatt Hfuel; [lia|].
  rewrite randomLoop_S. cbv zeta.
  pose proof (floor_random_in_range (random (randomDraws st)) _ Hlen)
    as Hidx.
  set (idx := Float.Math_floor _) in *.
  assert (Hone : set_randomDraws (S (randomDraws st)) st
                 = set_randomDraws (randomDraws st + 1) st)
    by (unfold set_randomDraws; f_equal; lia).
  destruct (getIndex (quotes st) (Num idx)) as [quote|] eqn:Eq.
  - destruct (string_eqb (text quote) cur && (attempts + 1 <? 20)) eqn:Ec.
    + apply andb_prop in Ec. destruct Ec as [_ Hlt].
      apply Z.ltb_lt in Hlt.
      destruct (IH cur (attempts + 1)
                  (set_randomDraws (S (randomDraws st)) st))
        as (d & Hd1 & Hd20 & Hst & Hres);
        [exact Hlen | lia | lia |].
      exists (S d). split; [lia|]. split; [lia|]. split.
      * rewrite Hst. unfold set_randomDraws. cbn. f_equal. lia.
      * destruct (fst (randomLoop _ _ _ _ _)) as [i | e |];
          [| exact Hres | exact Hres].
        destruct Hres as (Hi & q & Hq & Hq20). split; [exact Hi|].
        exists q. split; [exact Hq|]. intros Ht. specialize (Hq20 Ht). lia.
    + exists 1%nat. split; [lia|]. split; [lia|]. split; [exact Hone|].
      cbn [fst]. split; [exact Hidx|].
      exists quote. split; [exact Eq|]. intros Ht.
      apply string_eqb_eq in Ht. rewrite Ht in Ec. cbn [andb] in Ec.
      apply Z.ltb_ge in Ec. lia.
  - exists 1%nat. split; [lia|]. split; [lia|]. split; [exact Hone|].
    cbn [fst]. destruct (all_present (quotes st)) eqn:Eall; [|reflexivity].
    destruct (getIndex_present _ idx Eall Hidx) as [q Hq]. congruence.
Qed.

Lemma getRandomIndex_unfold (random : nat -> Float.unit_double) (fuel : nat)
  (currentText : jsstring) (st : page) :
  getRandomIndex random fuel currentText st =
  let st0 := set_selectorCalls (selectorCalls st ++ [RandomSelector]) st in
  if length_of st <=? 1 then (Return 0, st0)
  else randomLoop random fuel currentText 0 st0.
Proof.
  unfold getRandomIndex, called, bind, get, modify, ret, length_of.
  cbn [quotes set_selectorCalls].
  destruct (Z.of_nat (List.length (quotes st)) <=? 1); reflexivity.
Qed.

(** More fuel does not change a run that finished. *)
Lemma randomLoop_fuel_mono (random : nat -> Float.unit_double) (n : nat) :
  forall (m : nat) (currentText : jsstring) (attempts : Z) (st : page),
    (n <= m)%nat ->
    fst (randomLoop random n currentText attempts st) <> OutOfFuel ->
    randomLoop random m currentText attempts st
    = randomLoop random n currentText attempts st.
Proof.
  induction n as [|n IH]; intros m cur attempts st Hnm Hfin.
  - exfalso. apply Hfin. reflexivity.
  - destruct m as [|m]; [lia|].
    rewrite !randomLoop_S in *. cbv zeta in *.
    destruct (getIndex _ _) as [quote|]; [|reflexivity].
    destruct (string_eqb _ _ && _); [|reflexivity].
    apply IH; [lia | exact Hfin].
Qed.

(** With fuel for 20 iterations the loop finishes, so any larger fuel
    gives the same run. *)
Lemma randomLoop_fuel (random : nat -> Float.unit_double) (fuel : nat)
  (currentText : jsstring) (st : page) :
  0 < length_of st -> (20 <= fuel)%nat ->
  randomLoop random fuel currentText 0 st
  = randomLoop random 20 currentText 0 st.
Proof.
  intros Hlen Hfuel. apply randomLoop_fuel_mono; [exact Hfuel|].
  destruct (randomLoop_post random 20 currentText 0 st Hlen)
    as (d & _ & _ & _ & Hres); [lia | reflexivity |].
  intros E. rewrite E in Hres. exact Hres.
Qed.

(** The loop's postcondition holds of any run that returned, whatever
    the fuel. *)
Lemma randomLoop_returned (random : nat -> Float.unit_double) (fuel : nat)
  (currentText : jsstring) (st : page) (idx : Z) (st' : page) :
  0 < length_of st ->
  randomLoop random fuel currentText 0 st = (Return idx, st') ->
  loop_post currentText 0 st (Return idx, st').
Proof.
  intros Hlen Hrun.
  pose proof (randomLoop_post random (Nat.max fuel 20) currentText 0 st
                Hlen ltac:(lia) ltac:(lia)) as Hpost.
  rewrite (randomLoop_fuel_mono random fuel (Nat.max fuel 20)) in Hpost;
    [rewrite Hrun in Hpost; exact Hpost | lia |].
  rewrite Hrun. discriminate.
Qed.

(** C3. In a collection of more than one quote, [getRandomIndex] accepts
    a drawn index only if the quote there has a text other than
    [currentText] or the draw is the 20th: when the quote at the returned
    index has the text [currentText], exactly 20 draws were made. *)
Theorem getRandomIndex_repeat_only_at_20th
  (random : nat -> Float.unit_double) (fuel : nat) (currentText : jsstring)
  (st : page) (idx : Z) (st' : page) :
  1 < length_of st ->
  getRandomIndex random fuel currentText st = (Return idx, st') ->
  exists quote,
    getIndex (quotes st) (Num idx) = Some quote /\
    (text quote <> currentText \/
     randomDraws st' = (randomDraws st + 20)%nat) /\
    (text quote = currentText ->
     randomDraws st' = (randomDraws st + 20)%nat).
Proof.
  intros Hlen Hrun. rewrite getRandomIndex_unfold in Hrun. cbv zeta in Hrun.
  destruct (length_of st <=? 1) eqn:E; [apply Z.leb_le in E; lia|].
  apply randomLoop_returned in Hrun; [|exact (Z.lt_trans 0 1 _ Z.lt_0_1 Hlen)].
  destruct Hrun as (d & Hd1 & Hd20 & Hst & _ & quote & Hq & Hq20).
  cbn [snd] in Hst. cbn [quotes set_selectorCalls] in Hq.
  assert (Hdraws : text quote = currentText ->
                   randomDraws st' = (randomDraws st + 20)%nat).
  { intros Ht. specialize (Hq20 Ht). rewrite Hst. cbn [randomDraws
      set_randomDraws set_selectorCalls]. lia. }
  exists quote. split; [exact Hq|]. split; [|exact Hdraws].
  destruct (list_eq_dec Z.eq_dec (text quote) currentText) as [Ht | Ht];
    [right; exact (Hdraws Ht) | left; exact Ht].
Qed.

Lemma getRandomIndex_repeat_only_at_20th_witness :
  exists quote,
    getIndex sample_quotes (Num 0) = Some quote /\
    (text quote <> lit "one" \/
     randomDraws (snd (getRandomIndex always_zero 20 (lit "one")
                         (sample_page sample_quotes))) = 20%nat) /\
    (text quote = lit "one" ->
     randomDraws (snd (getRandomIndex always_zero 20 (lit "one")
                         (sample_page sample_quotes))) = 20%nat).
Proof.
  apply (getRandomIndex_repeat_only_at_20th always_zero 20 (lit "one")
           (sample_page sample_quotes) 0
           (snd (getRandomIndex always_zero 20 (lit "one")
                   (sample_page sample_quotes)))).
  - reflexivity.
  - vm_compute. reflexivity.
Defined.

(** C4. For every collection and every [currentText], whatever values
    are drawn, [getRandomIndex] finishes (by returning or by throwing)
    after at most 20 draws; fuel for 20 iterations is always enough. *)
Theorem getRandomIndex_at_most_20_draws
  (random : nat -> Float.unit_double) (fuel : nat) (currentText : jsstring)
  (st : page) :
  (20 <= fuel)%nat ->
  fst (getRandomIndex random fuel currentText st) <> OutOfFuel /\
  (randomDraws st
   <= randomDraws (snd (getRandomIndex random fuel currentText st))
   <= randomDraws st + 20)%nat /\
  getRandomIndex random fuel currentText st
  = getRandomIndex random 20 currentText st.
Proof.
  intros Hfuel. rewrite !getRandomIndex_unfold. cbv zeta.
  destruct (length_of st <=? 1) eqn:E.
  - cbn. split; [discriminate|]. split; [lia | reflexivity].
  - apply Z.leb_gt in E.
    set (st0 := set_selectorCalls _ st).
    assert (Hlen : 0 < length_of st0) by (unfold length_of in *; cbn; lia).
    rewrite (randomLoop_fuel random fuel currentText st0 Hlen Hfuel).
    destruct (randomLoop_post random 20 currentText 0 st0 Hlen)
      as (d & Hd1 & Hd20 & Hst & Hres); [lia | reflexivity |].
    split; [intros Eo; rewrite Eo in Hres; exact Hres|].
    split; [|reflexivity].
    rewrite Hst. cbn. lia.
Qed.

Lemma getRandomIndex_at_most_20_draws_witness :
  fst (getRandomIndex always_zero 25 (lit "one") (sample_page sample_quotes))
  <> OutOfFuel /\
  (randomDraws (sample_page sample_quotes)
   <= randomDraws (snd (getRandomIndex always_zero 25 (lit "one")
                          (sample_page sample_quotes)))
   <= randomDraws (sample_page sample_quotes) + 20)%nat /\
  getRandomIndex always_zero 25 (lit "one") (sample_page sample_quotes)
  = getRandomIndex always_zero 20 (lit "one") (sample_page sample_quotes).
Proof.
  apply (getRandomIndex_at_most_20_draws always_zero 25 (lit "one")
           (sample_page sample_quotes)).
  lia.
Defined.

(** C5. For every collection of at most one entry (the empty one
    included) and every [currentText], [getRandomIndex] returns 0 without
    drawing: the page is as before but for the record of the call. *)
Theorem getRandomIndex_short_collection
  (random : nat -> Float.unit_double) (fuel : nat) (currentText : jsstring)
  (st : page) :
  length_of st <= 1 ->
  getRandomIndex random fuel currentText st
  = (Return 0, set_selectorCalls (selectorCalls st ++ [RandomSelector]) st).
Proof.
  intros Hlen. rewrite getRandomIndex_unfold. cbv zeta.
  destruct (length_of st <=? 1) eqn:E; [reflexivity|].
  apply Z.leb_gt in E. lia.
Qed.

Lemma getRandomIndex_short_collection_witness :
  getRandomIndex quarters 0 (lit "one") (sample_page [])
  = (Return 0,
     set_selectorCalls
       (selectorCalls (sample_page []) ++ [RandomSelector])
       (sample_page [])) /\
  getRandomIndex quarters 20 (lit "one")
    (sample_page [Some (sample_quote "one")])
  = (Return 0,
     set_selectorCalls
       (selectorCalls (sample_page [Some (sample_quote "one")])
          ++ [RandomSelector])
       (sample_page [Some (sample_quote "one")])).
Proof.
  split.
  - apply (getRandomIndex_short_collection quarters 0 (lit "one")
             (sample_page [])).
    vm_compute. discriminate.
  - apply (getRandomIndex_short_collection quarters 20 (lit "one")
             (sample_page [Some (sample_quote "one")])).
    vm_compute. discriminate.
Defined.

(** C6. For every collection of more than one quote and every
    [currentText], the index [getRandomIndex] returns satisfies
    [0 <= idx < length] and the array holds a quote there, so the access
    [quotes[idx]] of the loop and a later lookup at the returned index
    are in bounds; and when every entry is a quote it does return one. *)
Theorem getRandomIndex_in_range
  (random : nat -> Float.unit_double) (fuel : nat) (currentText : jsstring)
  (st : page) :
  1 < length_of st ->
  (forall idx st',
      getRandomIndex random fuel currentText st = (Return idx, st') ->
      0 <= idx < length_of st /\
      exists quote, getIndex (quotes st) (Num idx) = Some quote) /\
  ((20 <= fuel)%nat -> all_present (quotes st) = true ->
   exists idx st',
     getRandomIndex random fuel currentText st = (Return idx, st')).
Proof.
  intros Hlen. rewrite !getRandomIndex_unfold. cbv zeta.
  destruct (length_of st <=? 1) eqn:E; [apply Z.leb_le in E; lia|].
  set (st0 := set_selectorCalls _ st).
  assert (Hlen0 : 0 < length_of st0) by (unfold length_of in *; cbn; lia).
  split.
  - intros idx st' Hrun.
    apply randomLoop_returned in Hrun; [|exact Hlen0].
    destruct Hrun as (d & _ & _ & _ & Hi & quote & Hq & _).
    split; [exact Hi | exists quote; exact Hq].
  - intros Hfuel Hall.
    rewrite (randomLoop_fuel random fuel currentText st0 Hlen0 Hfuel).
    destruct (randomLoop_post random 20 currentText 0 st0 Hlen0)
      as (d & _ & _ & _ & Hres); [lia | reflexivity |].
    destruct (randomLoop random 20 currentText 0 st0) as [[idx | e |] st'];
      cbn [fst] in Hres.
    + exists idx, st'. reflexivity.
    + unfold st0 in Hres. cbn [quotes set_selectorCalls] in Hres.
      congruence.
    + contradiction.
Qed.

Lemma getRandomIndex_in_range_witness :
  (0 <= 1 < length_of (sample_page sample_quotes) /\
   exists quote,
     getIndex (quotes (sample_page sample_quotes)) (Num 1) = Some quote) /\
  exists idx st',
    getRandomIndex quarters 20 (lit "one") (sample_page sample_quotes)
    = (Return idx, st').
Proof.
  destruct (getRandomIndex_in_range quarters 20 (lit "one")
              (sample_page sample_quotes) eq_refl) as [Hret Hex].
  split.
  - apply (Hret 1 (snd (getRandomIndex quarters 20 (lit "one")
                          (sample_page sample_quotes)))).
    vm_compute. reflexivity.
  - apply Hex; [lia | reflexivity].
Defined.

(** ** The display path *)

Lemma getIndex_no_quote (qs : collection) (index : number) :
  no_quote_at qs index <-> getIndex qs index = None.
Proof.
  destruct index as [i|]; cbn [no_quote_at getIndex]; [|tauto].
  destruct (i <? 0) eqn:E; [apply Z.ltb_lt in E; tauto|].
  apply Z.ltb_ge in E.
  destruct (nth_error qs (Z.to_nat i)) as [entry|] eqn:En.
  - assert (Hlt : i < Z.of_nat (List.length qs)).
    { assert (Hn : (Z.to_nat i < List.length qs)%nat)
        by (apply nth_error_Some; congruence). lia. }
    split.
    + intros [H | [H | H]]; [lia | lia | congruence].
    + intros H. right. right. congruence.
  - apply nth_error_None in En. split; [reflexivity|].
    intros _. right. left. lia.
Qed.

Lemma displayQuote_unfold (index : number) (st : page) :
  displayQuote index st =
  match getIndex (quotes st) index with
  | None => (Return tt, st)
  | Some quote =>
      (Return tt,
       set_timers (timers st ++ [(SwapText quote, 300)])
         (set_quoteCredit (classList_remove "visible" (quoteCredit st))
            (set_quoteText (classList_remove "visible" (quoteText st)) st)))
  end.
Proof.
  unfold displayQuote, bind, get. destruct (getIndex (quotes st) index);
    reflexivity.
Qed.

(** C9. At every index where the collection has no quote (not a number,
    out of range, or an entry that is not a quote) [displayQuote] returns
    normally and leaves the page exactly as it was: texts, classes and
    pending callbacks included. *)
Theorem displayQuote_missing (index : number) (st : page) :
  no_quote_at (quotes st) index ->
  displayQuote index st = (Return tt, st).
Proof.
  intros Hno. apply getIndex_no_quote in Hno.
  rewrite displayQuote_unfold, Hno. reflexivity.
Qed.

Lemma displayQuote_missing_witness :
  displayQuote (Num 3) (sample_page sample_quotes)
  = (Return tt, sample_page sample_quotes) /\
  displayQuote (Num 1) (sample_page [Some (sample_quote "one"); None])
  = (Return tt, sample_page [Some (sample_quote "one"); None]).
Proof.
  split.
  - apply (displayQuote_missing (Num 3) (sample_page sample_quotes)).
    right. left. vm_compute. discriminate.
  - apply (displayQuote_missing (Num 1)
             (sample_page [Some (sample_quote "one"); None])).
    right. right. reflexivity.
Defined.

Lemma runCallback_credit (quote : Quote) (st : page) :
  rendered_credit quote st =
  match album quote with
  | Some a =>
      if negb (string_eqb a []) && negb (string_eqb a (lit "Single"))
      then plain_credit quote ++ lit " (" ++ a ++ lit ")"
      else plain_credit quote
  | None => plain_credit quote
  end.
Proof.
  unfold rendered_credit, plain_credit.
  destruct (album quote) as [a|] eqn:Ea.
  - destruct (negb (string_eqb a []) && negb (string_eqb a (lit "Single")))
      eqn:Ec;
      unfold runCallback, bind, on_quoteText, on_quoteCredit,
        requestAnimationFrame, bind, get, modify, ret;
      rewrite Ea, Ec; reflexivity.
  - unfold runCallback, bind, on_quoteText, on_quoteCredit,
      requestAnimationFrame, bind, get, modify, ret;
      rewrite Ea; reflexivity.
Qed.

Lemma string_eqb_neq (a b : jsstring) : string_eqb a b = false <-> a <> b.
Proof.
  unfold string_eqb. destruct (list_eq_dec Z.eq_dec a b); split;
    congruence.
Qed.

Lemma album_named_test (quote : Quote) :
  album_named quote <->
  exists a, album quote = Some a /\
            negb (string_eqb a []) && negb (string_eqb a (lit "Single"))
            = true.
Proof.
  unfold album_named. split; intros (a & Ha & H); exists a; split; auto.
  - destruct H as [H1 H2]. apply string_eqb_neq in H1, H2.
    rewrite H1, H2. reflexivity.
  - apply andb_prop in H. destruct H as [H1 H2].
    apply negb_true_iff in H1, H2. split; apply string_eqb_neq; assumption.
Qed.

(** C7. The rendered credit is ["song — artist (album)"] when the album
    is present and is not ["Single"], and is exactly ["song — artist"]
    otherwise; so the parenthetical is there if and only if the album is
    present and not ["Single"]. *)
Theorem rendered_credit_album (quote : Quote) (st : page) :
  ((exists a, album quote = Some a /\ a <> [] /\ a <> lit "Single" /\
              rendered_credit quote st
              = plain_credit quote ++ lit " (" ++ a ++ lit ")")
   \/ (~ album_named quote /\ rendered_credit quote st = plain_credit quote))
  /\ (rendered_credit quote st <> plain_credit quote <-> album_named quote).
Proof.
  rewrite runCallback_credit.
  assert (Hlonger : forall a : jsstring,
             plain_credit quote ++ lit " (" ++ a ++ lit ")"
             <> plain_credit quote).
  { intros a E. apply (f_equal (@List.length Z)) in E.
    rewrite !length_app in E. cbn in E. lia. }
  destruct (album quote) as [a|] eqn:Ea.
  - destruct (negb (string_eqb a []) && negb (string_eqb a (lit "Single")))
      eqn:Ec.
    + assert (Hn : album_named quote)
        by (apply album_named_test; exists a; auto).
      split.
      * left. exists a. destruct Hn as (a' & Ha' & H1 & H2).
        assert (a' = a) by congruence. subst a'. auto.
      * split; [intros _; exact Hn | intros _; apply Hlonger].
    + assert (Hn : ~ album_named quote).
      { intros H. apply album_named_test in H. destruct H as (a' & Ha' & H).
        assert (a' = a) by congruence. subst a'. congruence. }
      split; [right; auto|]. split; [congruence | contradiction].
  - assert (Hn : ~ album_named quote).
    { intros (a & Ha' & _). congruence. }
    split; [right; auto|]. split; [congruence | contradiction].
Qed.

Lemma rendered_credit_album_witness :
  rendered_credit abbey_road (sample_page sample_quotes)
  <> plain_credit abbey_road /\
  rendered_credit abbey_road (sample_page sample_quotes)
  = lit "Here Comes the Sun " ++ [8212] ++ lit " The Beatles (Abbey Road)" /\
  rendered_credit (sample_quote "one") (sample_page sample_quotes)
  = plain_credit (sample_quote "one").
Proof.
  split; [|split; reflexivity].
  apply (rendered_credit_album abbey_road (sample_page sample_quotes)).
  exists (lit "Abbey Road"). split; [reflexivity|].
  split; discriminate.
Defined.

(** ** The empty collection *)

Lemma classList_add_In (c : string) (e : element) :
  In c (classList (classList_add c e)).
Proof.
  unfold classList_add. cbn [classList].
  destruct (in_dec string_dec c (classList e)) as [H | H]; [exact H|].
  apply in_or_app. right. left. reflexivity.
Qed.

Lemma script_no_data (QUOTES_DATA : option collection) (today : utc_date)
  (qt qc dl : element) :
  no_data QUOTES_DATA ->
  script QUOTES_DATA today (loaded qt qc dl)
  = (Return tt, empty_page qt qc dl).
Proof. intros [E | E]; subst QUOTES_DATA; reflexivity. Qed.

(** The key listener is registered whatever the collection is. *)
Lemma script_registers_keydown (QUOTES_DATA : option collection)
  (today : utc_date) (st : page) :
  fst (script QUOTES_DATA today st) = Return tt /\
  keydownListener (snd (script QUOTES_DATA today st)) = true.
Proof.
  unfold script, bind, modify, get, ret. cbn [quotes set_quotes set_isDaily].
  destruct (Z.of_nat (List.length _) =? 0).
  - split; reflexivity.
  - unfold getDailyIndex, called, bind, modify, get, ret.
    rewrite displayQuote_unfold.
    destruct (getIndex _ _); split; reflexivity.
Qed.

Lemma keydown_space_empty_page (random : nat -> Float.unit_double)
  (fuel : nat) (qt qc dl : element) :
  keydown random fuel space_on_body (empty_page qt qc dl)
  = (Return tt, empty_page_shuffled qt qc dl).
Proof. reflexivity. Qed.

(** The click path is closed on the empty page: no listener was
    registered on the button. *)
Lemma click_empty_page (random : nat -> Float.unit_double) (fuel : nat)
  (qt qc dl : element) :
  click random fuel (empty_page qt qc dl)
  = (Return tt, empty_page qt qc dl).
Proof. reflexivity. Qed.

(** C10. The key listener is registered whatever the collection is, so
    with an empty collection the space key still runs [onShuffle]:
    [getRandomIndex] is called and returns 0, [displayQuote(0)] finds no
    quote and returns at once, nothing is thrown and the shown text stays
    the fallback message, but the mode flag is cleared and the mode label
    is set to ["random"]. *)
Theorem keydown_space_on_empty_collection
  (random : nat -> Float.unit_double) (fuel : nat)
  (QUOTES_DATA : option collection) (today : utc_date) (qt qc dl : element) :
  no_data QUOTES_DATA ->
  (forall data, keydownListener
                  (snd (script data today (loaded qt qc dl))) = true) /\
  let st := snd (script QUOTES_DATA today (loaded qt qc dl)) in
  let st' := snd (keydown random fuel space_on_body st) in
  fst (keydown random fuel space_on_body st) = Return tt /\
  selectorCalls st = [] /\ selectorCalls st' = [RandomSelector] /\
  (forall currentText,
      fst (getRandomIndex random fuel currentText st) = Return 0) /\
  displayQuote (Num 0) st' = (Return tt, st') /\
  quoteText st' = quoteText st /\
  textContent (quoteText st') = lit "No quotes available yet." /\
  quoteCredit st' = quoteCredit st /\
  timers st' = [] /\ frames st' = [] /\
  isDaily st = true /\ isDaily st' = false /\
  textContent (dailyLabel st') = lit "random".
Proof.
  intros Hno. split; [intros data; apply script_registers_keydown|].
  rewrite (script_no_data _ today qt qc dl Hno). cbn [snd].
  rewrite keydown_space_empty_page. cbn [fst snd].
  repeat split.
Qed.

Lemma keydown_space_on_empty_collection_witness :
  selectorCalls
    (snd (keydown quarters 20 space_on_body
            (snd (script (Some []) sample_today
                    (loaded blank blank blank)))))
  = [RandomSelector] /\
  textContent
    (dailyLabel
       (snd (keydown quarters 20 space_on_body
               (snd (script (Some []) sample_today
                       (loaded blank blank blank))))))
  = lit "random".
Proof.
  pose proof (keydown_space_on_empty_collection quarters 20 (Some [])
                sample_today blank blank blank (or_intror eq_refl))
    as (_ & _ & _ & Hcalls & _ & _ & _ & _ & _ & _ & _ & _ & _ & Hlabel).
  split; [exact Hcalls | exact Hlabel].
Defined.

(** C8, evaluated on the code. With an empty collection the script shows
    the fallback message, visible at once, calls no selector, registers no
    click listener and throws nothing; but the space key pressed on the
    body afterwards does call [getRandomIndex]. *)
Theorem empty_collection_space_key_calls_selector
  (random : nat -> Float.unit_double) (fuel : nat) (today : utc_date)
  (qt qc dl : element) :
  let st := snd (script (Some []) today (loaded qt qc dl)) in
  fst (script (Some []) today (loaded qt qc dl)) = Return tt /\
  textContent (quoteText st) = lit "No quotes available yet." /\
  In "visible"%string (classList (quoteText st)) /\
  timers st = [] /\ selectorCalls st = [] /\
  click random fuel st = (Return tt, st) /\
  fst (keydown random fuel space_on_body st) = Return tt /\
  selectorCalls (snd (keydown random fuel space_on_body st))
  = [RandomSelector].
Proof.
  rewrite (script_no_data (Some []) today qt qc dl (or_intror eq_refl)).
  cbn [fst snd]. rewrite keydown_space_empty_page, click_empty_page.
  cbn [fst snd]. repeat split.
  apply classList_add_In.
Qed.

(** ** A page load and a shuffle, run on sample data *)

Example page_load_sample :
  let st1 := snd (script (Some sample_quotes) sample_today
                    (loaded blank blank blank)) in
  let st2 := snd (fireTimeout st1) in
  let st3 := snd (fireFrame st2) in
  selectorCalls st1 = [DailySelector] /\
  timers st1 = [(SwapText (sample_quote "one"), 300)] /\
  shuffleClickListener st1 = true /\ keydownListener st1 = true /\
  textContent (quoteText st2) = [8220] ++ lit "one" ++ [8221] /\
  textContent (quoteCredit st2) = plain_credit (sample_quote "one") /\
  classList (quoteText st2) = [] /\
  classList (quoteText st3) = ["visible"%string] /\
  classList (quoteCredit st3) = ["visible"%string].
Proof. vm_compute. repeat split. Qed.

Example shuffle_sample :
  let st3 := snd (fireFrame (snd (fireTimeout
                 (snd (script (Some sample_quotes) sample_today
                         (loaded blank blank blank)))))) in
  let st4 := snd (keydown quarters 20 space_on_body st3) in
  let st5 := snd (fireFrame (snd (fireTimeout st4))) in
  fst (keydown quarters 20 space_on_body st3) = Return tt /\
  randomDraws st4 = 3%nat /\ isDaily st4 = false /\
  defaultPrevented st4 = true /\
  textContent (dailyLabel st4) = lit "random" /\
  classList (quoteText st4) = [] /\
  textContent (quoteText st5) = [8220] ++ lit "two" ++ [8221] /\
  classList (quoteText st5) = ["visible"%string].
Proof. vm_compute. repeat split. Qed.

(** A drawn entry that is not a quote makes the loop throw. *)
Example hole_sample :
  fst (getRandomIndex always_zero 20 (lit "one")
         (sample_page [None; Some (sample_quote "one")]))
  = Throw TypeError.
Proof. reflexivity. Qed.

(** * Further properties of the script *)

(** ** The date key *)

Lemma below_spec (N : Z) (P : Z -> bool) (n : Z) :
  below N P = true -> 0 <= n < N -> P n = true.
Proof.
  unfold below. rewrite forallb_forall. intros H Hn.
  specialize (H (Z.to_nat n)). rewrite Z2Nat.id in H by lia.
  apply H. apply in_seq. lia.
Qed.

Lemma padStart2_digits2 (n : Z) :
  0 <= n < 100 -> padStart2 (String_of n) = digits2 n.
Proof.
  intros Hn. apply string_eqb_eq.
  apply (below_spec 100
           (fun n => string_eqb (padStart2 (String_of n)) (digits2 n)));
    [vm_compute; reflexivity | lia].
Qed.

Lemma String_of_digits4 (n : Z) :
  1000 <= n < 10000 -> String_of n = digits4 n.
Proof.
  intros Hn.
  assert (H : string_eqb (String_of (1000 + (n - 1000)))
                         (digits4 (1000 + (n - 1000))) = true).
  { apply (below_spec 9000
             (fun k => string_eqb (String_of (1000 + k))
                                  (digits4 (1000 + k))));
      [vm_compute; reflexivity | lia]. }
  replace (1000 + (n - 1000)) with n in H by lia.
  apply string_eqb_eq. exact H.
Qed.

(** For a four-digit year the key is [YYYY-MM-DD], ten code units, with
    the month counted from 1 and month and day padded to two digits. *)
Theorem todayString_format (d : utc_date) :
  valid_date d -> 1000 <= utcFullYear d <= 9999 ->
  todayString d
  = digits4 (utcFullYear d) ++ [45] ++ digits2 (utcMonth d + 1) ++ [45]
    ++ digits2 (utcDate d)
  /\ List.length (todayString d) = 10%nat.
Proof.
  intros [Hm Hd] Hy.
  assert (E : todayString d
              = digits4 (utcFullYear d) ++ [45] ++ digits2 (utcMonth d + 1)
                ++ [45] ++ digits2 (utcDate d)).
  { unfold todayString.
    rewrite String_of_digits4 by lia.
    rewrite !padStart2_digits2 by lia. reflexivity. }
  split; [exact E | rewrite E; reflexivity].
Qed.

Lemma todayString_format_witness :
  todayString sample_today
  = digits4 2024 ++ [45] ++ digits2 1 ++ [45] ++ digits2 15
  /\ List.length (todayString sample_today) = 10%nat.
Proof.
  apply (todayString_format sample_today).
  - unfold valid_date. cbn. lia.
  - cbn. lia.
Defined.

Lemma lit_inj (s t : string) : lit s = lit t -> s = t.
Proof.
  unfold lit. intros H.
  rewrite <- (string_of_list_ascii_of_string s).
  rewrite <- (string_of_list_ascii_of_string t). f_equal.
  revert H. generalize (list_ascii_of_string s) (list_ascii_of_string t).
  induction l as [|a l IH]; intros [|b l']; cbn; intros H;
    try discriminate; [reflexivity|].
  injection H as Hab Hl. f_equal; [|apply IH; exact Hl].
  apply N2Z.inj in Hab.
  rewrite <- (ascii_N_embedding a), <- (ascii_N_embedding b), Hab.
  reflexivity.
Qed.

Lemma to_int_proper (n : Z) :
  Z.to_int n <> Decimal.Pos Decimal.Nil /\
  Z.to_int n <> Decimal.Neg Decimal.Nil.
Proof.
  destruct n as [|p|p]; cbn; split; try discriminate;
    intros H; injection H as H;
    exact (DecimalPos.Unsigned.to_uint_nonnil p H).
Qed.

(** [String(n)] tells integers apart. *)
Lemma String_of_inj (n m : Z) : String_of n = String_of m -> n = m.
Proof.
  unfold String_of. intros H. apply lit_inj in H.
  destruct (to_int_proper n) as [Hn1 Hn2], (to_int_proper m) as [Hm1 Hm2].
  pose proof (NilZero.isi _ Hn1 Hn2) as En.
  pose proof (NilZero.isi _ Hm1 Hm2) as Em.
  rewrite H in En. rewrite En in Em. injection Em as Em.
  rewrite <- (DecimalZ.of_to n), <- (DecimalZ.of_to m), Em. reflexivity.
Qed.

Lemma digits2_inj (n m : Z) :
  0 <= n < 100 -> 0 <= m < 100 -> digits2 n = digits2 m -> n = m.
Proof.
  unfold digits2. intros Hn Hm H.
  assert (H1 : digit (n / 10) = digit (m / 10)) by congruence.
  assert (H2 : digit (n mod 10) = digit (m mod 10)) by congruence.
  unfold digit in H1, H2.
  pose proof (Z.div_mod n 10 ltac:(lia)).
  pose proof (Z.div_mod m 10 ltac:(lia)). lia.
Qed.

(** Two lists with equally long tails and equal concatenations. *)
Lemma app_inj_by_tail {A : Type} (a a' b b' : list A) :
  List.length b = List.length b' -> a ++ b = a' ++ b' ->
  a = a' /\ b = b'.
Proof.
  intros Hlen H.
  assert (Ha : List.length a = List.length a').
  { apply (f_equal (@List.length A)) in H. rewrite !length_app in H. lia. }
  clear Hlen. revert a' Ha H.
  induction a as [|x a IH]; intros [|y a'] Ha H; cbn in *;
    try discriminate; [auto|].
  injection H as Hx H. destruct (IH a' ltac:(lia) H) as [E1 E2].
  subst. auto.
Qed.

(** Distinct dates have distinct keys, whatever the year: the key names
    the day. *)
Theorem todayString_injective (d d' : utc_date) :
  valid_date d -> valid_date d' ->
  todayString d = todayString d' -> d = d'.
Proof.
  intros [Hm Hd] [Hm' Hd'] H. unfold todayString in H.
  rewrite !padStart2_digits2 in H by lia.
  rewrite !app_assoc in H.
  apply app_inj_by_tail in H; [|reflexivity]. destruct H as [H Hday].
  apply app_inj_by_tail in H; [|reflexivity]. destruct H as [H _].
  apply app_inj_by_tail in H; [|reflexivity]. destruct H as [H Hmonth].
  apply app_inj_by_tail in H; [|reflexivity]. destruct H as [Hyear _].
  apply String_of_inj in Hyear.
  apply digits2_inj in Hday; [|lia|lia].
  apply digits2_inj in Hmonth; [|lia|lia].
  destruct d as [y m a], d' as [y' m' a']; cbn in *.
  f_equal; lia.
Qed.

Lemma todayString_injective_witness :
  {| utcFullYear := 2024; utcMonth := 0; utcDate := 15 |} = sample_today.
Proof.
  apply (todayString_injective
           {| utcFullYear := 2024; utcMonth := 0; utcDate := 15 |}
           sample_today).
  - unfold valid_date. cbn. lia.
  - unfold valid_date. cbn. lia.
  - reflexivity.
Defined.

(** ** The hash *)

(** [hashString] lies between 0 and 2^31, both reached by strings of
    UTF-16 code units: the result needs 32 unsigned bits, not 31. *)
Theorem hashString_bounds (str : jsstring) :
  0 <= hashString str <= 2 ^ 31 /\
  hashString [] = 0 /\
  (exists s, wf_string s /\ hashString s = 2 ^ 31).
Proof.
  split; [split; [apply hashString_nonneg | apply hashString_le]|].
  split; [reflexivity|].
  exists [2325; 9; 30; 12; 2]. split; [|reflexivity].
  unfold wf_string, code_unit_ok. repeat constructor; lia.
Qed.

Lemma wrap32_step (p h c : Z) :
  h = wrap32 p -> reference_step h c = wrap32 (p * 31 + c).
Proof.
  intros Hh. unfold reference_step.
  rewrite Z.shiftl_mul_pow2 by lia. change (2 ^ 5) with 32.
  destruct (wrap32_congr p) as [k1 H1].
  destruct (wrap32_congr (h * 32 - h + c)) as [k2 H2].
  destruct (wrap32_congr (p * 31 + c)) as [k3 H3].
  apply (int32_unique _ _ (k2 + 31 * k1 - k3)); auto using wrap32_range.
  lia.
Qed.

(** Truncating at every step is truncating once at the end:
    [hashString] is the absolute value of the 32-bit truncation of the
    polynomial [c0 * 31^(n-1) + ... + c(n-1)]. *)
Theorem hashString_polynomial (str : jsstring) :
  hashLoop str = toInt32 (polynomial31 str) /\
  hashString str = Z.abs (toInt32 (polynomial31 str)).
Proof.
  assert (E : hashLoop str = toInt32 (polynomial31 str)).
  { rewrite hashLoop_reference, toInt32_wrap32.
    unfold reference_hash32, polynomial31.
    assert (G : forall (s : jsstring) (p h : Z),
               h = wrap32 p ->
               fold_left reference_step s h
               = wrap32 (fold_left (fun h c => h * 31 + c) s p)).
    { induction s as [|c s IH]; intros p h Hh; cbn [fold_left];
        [exact Hh|].
      apply IH. apply wrap32_step. exact Hh. }
    apply G. reflexivity. }
  split; [exact E|]. unfold hashString, Math_abs. rewrite E. reflexivity.
Qed.

(** Appending one code unit multiplies the 32-bit hash by 31 and adds the
    unit, modulo 2^32. *)
Theorem hashLoop_snoc (str : jsstring) (c : Z) :
  hashLoop (str ++ [c]) = toInt32 (hashLoop str * 31 + c).
Proof.
  rewrite toInt32_wrap32, !hashLoop_reference. unfold reference_hash32.
  rewrite fold_left_app. cbn [fold_left].
  apply wrap32_step.
  fold (reference_hash32 str).
  destruct (wrap32_congr (reference_hash32 str)) as [k Hk].
  apply (int32_unique _ _ (- k));
    auto using wrap32_range, reference_hash32_range. lia.
Qed.

(** On a string of UTF-16 code units, at every iteration the value of
    [hash] is a signed 32-bit integer and the three Numbers computed by
    line 20 are integers below 2^53 in magnitude: no double rounding
    happens in the loop. *)
Theorem hashString_exact (prefix : jsstring) (c : Z) (rest : jsstring) :
  wf_string (prefix ++ c :: rest) ->
  let hash := hashLoop prefix in
  - 2 ^ 31 <= hash < 2 ^ 31 /\
  Z.abs (shl hash 5) < 2 ^ 53 /\
  Z.abs (shl hash 5 - hash) < 2 ^ 53 /\
  Z.abs (shl hash 5 - hash + c) < 2 ^ 53.
Proof.
  intros Hwf hash.
  assert (Hc : code_unit_ok c).
  { unfold wf_string in Hwf. rewrite Forall_forall in Hwf. apply Hwf.
    apply in_or_app. right. left. reflexivity. }
  assert (Hh : - 2 ^ 31 <= hash < 2 ^ 31).
  { unfold hash. rewrite hashLoop_reference. apply reference_hash32_range. }
  split; [exact Hh|]. apply hash_step_safe_integer; assumption.
Qed.

Lemma hashString_exact_witness :
  let hash := hashLoop (lit "2024-01-1") in
  - 2 ^ 31 <= hash < 2 ^ 31 /\
  Z.abs (shl hash 5) < 2 ^ 53 /\
  Z.abs (shl hash 5 - hash) < 2 ^ 53 /\
  Z.abs (shl hash 5 - hash + 53) < 2 ^ 53.
Proof.
  apply (hashString_exact (lit "2024-01-1") 53 []).
  unfold wf_string, code_unit_ok. cbn. repeat constructor; lia.
Defined.

(** ** The draw of line 51 *)

(** On a non-empty array, [Math.floor(Math.random() * quotes.length)] is
    an index of the array for every double [Math.random()] can return,
    the largest one below 1 included: rounding the product never gives
    [quotes.length]. *)
Theorem random_draw_in_bounds (r : Float.unit_double) (qs : collection) :
  qs <> [] ->
  let idx := Float.Math_floor (Float.mul r (Z.of_nat (List.length qs))) in
  0 <= idx < Z.of_nat (List.length qs) /\
  exists entry, nth_error qs (Z.to_nat idx) = Some entry.
Proof.
  intros Hne idx.
  assert (Hlen : 0 < Z.of_nat (List.length qs))
    by (destruct qs; [congruence | cbn; lia]).
  pose proof (floor_random_in_range r _ Hlen) as Hidx. fold idx in Hidx.
  split; [exact Hidx|].
  destruct (nth_error qs (Z.to_nat idx)) as [entry|] eqn:E; [eauto|].
  apply nth_error_None in E. lia.
Qed.

Lemma random_draw_in_bounds_witness :
  let idx := Float.Math_floor
               (Float.mul (quarter_double 3)
                  (Z.of_nat (List.length sample_quotes))) in
  0 <= idx < Z.of_nat (List.length sample_quotes) /\
  exists entry, nth_error sample_quotes (Z.to_nat idx) = Some entry.
Proof.
  apply (random_draw_in_bounds (quarter_double 3) sample_quotes).
  discriminate.
Defined.

Lemma round53_lower (n : Z) :
  0 <= n -> 0 < Z.log2 n - 52 ->
  n / 2 ^ (Z.log2 n - 52) * 2 ^ (Z.log2 n - 52) <= Float.round53 n.
Proof.
  intros Hn Hb. unfold Float.round53.
  set (b := Z.log2 n - 52) in *.
  destruct (b <=? 0) eqn:Eb; [apply Z.leb_le in Eb; lia|].
  rewrite Z.shiftr_div_pow2 by lia.
  assert (Hp : 0 < 2 ^ b) by (apply Z.pow_pos_nonneg; lia).
  destruct ((2 ^ (b - 1) <? n mod 2 ^ b)
            || ((n mod 2 ^ b =? 2 ^ (b - 1)) && Z.odd (n / 2 ^ b))); nia.
Qed.

Lemma least_mant_spec (i len : Z) :
  0 <= i < len ->
  i * 2 ^ 53 <= least_mant i len * len < i * 2 ^ 53 + len.
Proof.
  intros Hi. unfold least_mant.
  pose proof (Z.div_mod (i * 2 ^ 53 + len - 1) len ltac:(lia)) as Hd.
  pose proof (Z.mod_pos_bound (i * 2 ^ 53 + len - 1) len ltac:(lia)) as Hm.
  lia.
Qed.

(** Every index of an array (of at most 2^32 entries) is drawn by some
    value of [Math.random()]: no quote is out of reach of the shuffle. *)
Theorem random_draw_onto (len i : Z) :
  0 <= i < len -> len <= 2 ^ 32 ->
  exists r : Float.unit_double,
    Float.mant r = least_mant i len /\ Float.expo r = 53 /\
    Float.Math_floor (Float.mul r len) = i.
Proof.
  intros Hi Hlen.
  pose proof (least_mant_spec i len Hi) as Hm.
  set (m := least_mant i len) in *.
  assert (Hm0 : 0 <= m) by nia.
  assert (Hm53 : m < 2 ^ 53) by nia.
  assert (Hok : Float.in_unit_range m 53 = true).
  { unfold Float.in_unit_range.
    rewrite (proj2 (Z.leb_le 0 m) Hm0), (proj2 (Z.ltb_lt m (2 ^ 53)) Hm53).
    reflexivity. }
  exists {| Float.mant := m; Float.expo := 53; Float.unit_double_ok := Hok |}.
  split; [reflexivity|]. split; [reflexivity|].
  unfold Float.Math_floor, Float.mul.
  cbn [Float.num Float.scale Float.mant Float.expo].
  assert (Hn : 0 <= m * len) by nia.
  destruct (round53_bounds (m * len) Hn) as (_ & Hexact & Hup).
  assert (Hround : i * 2 ^ 53 <= Float.round53 (m * len)
                   < (i + 1) * 2 ^ 53).
  { destruct (Z_le_gt_dec (Z.log2 (m * len) - 52) 0) as [Hb | Hb].
    - rewrite (Hexact Hb). lia.
    - specialize (Hup ltac:(lia)).
      pose proof (round53_lower (m * len) Hn ltac:(lia)) as Hlow.
      assert (Hpos : 0 < m * len).
      { destruct (Z.eq_dec (m * len) 0) as [E | E]; [|lia].
        rewrite E in Hb. cbn in Hb. lia. }
      assert (Hlog : Z.log2 (m * len) < 85).
      { apply Z.log2_lt_pow2; [exact Hpos|].
        change (2 ^ 85) with (2 ^ 32 * 2 ^ 53). nia. }
      set (b := Z.log2 (m * len) - 52) in *.
      assert (Hb33 : b <= 32) by lia.
      assert (Hhalf : 2 ^ (b - 1) <= 2 ^ 31)
        by (apply Z.pow_le_mono_r; lia).
      assert (Hp : 0 < 2 ^ b) by (apply Z.pow_pos_nonneg; lia).
      assert (Hsplit : 2 ^ 53 = 2 ^ (53 - b) * 2 ^ b).
      { rewrite <- Z.pow_add_r by lia. f_equal. lia. }
      assert (Hdiv : i * 2 ^ (53 - b) <= m * len / 2 ^ b).
      { apply Z.div_le_lower_bound; [exact Hp|]. nia. }
      split; [nia | lia]. }
  apply Z.le_antisymm.
  - assert (H : Float.round53 (m * len) / 2 ^ 53 < i + 1)
      by (apply Z.div_lt_upper_bound; lia).
    lia.
  - apply Z.div_le_lower_bound; lia.
Qed.

Lemma random_draw_onto_witness :
  exists r : Float.unit_double,
    Float.mant r = least_mant 2 3 /\ Float.expo r = 53 /\
    Float.Math_floor (Float.mul r 3) = 2.
Proof. apply (random_draw_onto 3 2); lia. Defined.

(** ** Which draw the random selector returns *)

Lemma draw_shift (random : nat -> Float.unit_double) (st : page) (k : nat) :
  draw random (set_randomDraws (S (randomDraws st)) st) k
  = draw random st (S k).
Proof.
  unfold draw, length_of. cbn [randomDraws quotes set_randomDraws].
  do 3 f_equal. lia.
Qed.

Lemma randomLoop_first_accept (random : nat -> Float.unit_double)
  (currentText : jsstring) (n : nat) :
  forall (fuel : nat) (attempts : Z) (st : page),
    (n < fuel)%nat -> attempts + Z.of_nat n < 20 ->
    (forall j, (j < n)%nat ->
               repeats (quotes st) currentText (draw random st j)) ->
    differs (quotes st) currentText (draw random st n) \/
    (repeats (quotes st) currentText (draw random st n) /\
     attempts + Z.of_nat n = 19) ->
    randomLoop random fuel currentText attempts st
    = (Return (draw random st n),
       set_randomDraws (randomDraws st + S n) st).
Proof.
  induction n as [|n IH]; intros fuel attempts st Hfuel Hatt Hrep Hlast;
    (destruct fuel as [|fuel]; [lia|]); rewrite randomLoop_S; cbv zeta.
  - assert (E0 : Float.Math_floor
                   (Float.mul (random (randomDraws st)) (length_of st))
                 = draw random st 0)
      by (unfold draw; rewrite Nat.add_0_r; reflexivity).
    rewrite E0.
    assert (Hst : set_randomDraws (S (randomDraws st)) st
                  = set_randomDraws (randomDraws st + 1) st)
      by (unfold set_randomDraws; f_equal; lia).
    destruct Hlast as [(q & Hq & Hne) | ((q & Hq & Heq) & H19)];
      rewrite Hq.
    + apply string_eqb_neq in Hne. rewrite Hne. cbn [andb].
      rewrite Hst. reflexivity.
    + assert (Hlt : (attempts + 1 <? 20) = false)
        by (apply Z.ltb_ge; lia).
      rewrite Hlt, andb_false_r, Hst. reflexivity.
  - assert (E0 : Float.Math_floor
                   (Float.mul (random (randomDraws st)) (length_of st))
                 = draw random st 0)
      by (unfold draw; rewrite Nat.add_0_r; reflexivity).
    rewrite E0.
    destruct (Hrep 0%nat ltac:(lia)) as (q & Hq & Heq). rewrite Hq.
    apply string_eqb_eq in Heq. rewrite Heq.
    assert (Hlt : (attempts + 1 <? 20) = true) by (apply Z.ltb_lt; lia).
    rewrite Hlt. cbn [andb].
    rewrite (IH fuel (attempts + 1)
               (set_randomDraws (S (randomDraws st)) st)).
    + rewrite draw_shift. f_equal. unfold set_randomDraws. cbn. f_equal.
      lia.
    + lia.
    + lia.
    + intros j Hj. rewrite draw_shift. apply Hrep. lia.
    + rewrite draw_shift. cbn [quotes set_randomDraws].
      destruct Hlast as [H | [H H19]]; [left; exact H | right].
      split; [exact H | lia].
Qed.

(** [getRandomIndex] returns the first drawn index whose quote has a
    text other than [currentText], having made that many draws, and the
    20th drawn index when the first 19 and it all repeat the text. *)
Theorem getRandomIndex_first_fresh_draw
  (random : nat -> Float.unit_double) (fuel : nat) (currentText : jsstring)
  (st : page) (n : nat) :
  1 < length_of st -> (n < fuel)%nat -> (n < 20)%nat ->
  (forall j, (j < n)%nat ->
             repeats (quotes st) currentText (draw random st j)) ->
  differs (quotes st) currentText (draw random st n) \/
  (repeats (quotes st) currentText (draw random st n) /\ n = 19%nat) ->
  getRandomIndex random fuel currentText st
  = (Return (draw random st n),
     set_randomDraws (randomDraws st + S n)
       (set_selectorCalls (selectorCalls st ++ [RandomSelector]) st)).
Proof.
  intros Hlen Hfuel Hn Hrep Hlast. rewrite getRandomIndex_unfold. cbv zeta.
  destruct (length_of st <=? 1) eqn:E; [apply Z.leb_le in E; lia|].
  apply (randomLoop_first_accept random currentText n fuel 0
           (set_selectorCalls (selectorCalls st ++ [RandomSelector]) st)).
  - exact Hfuel.
  - lia.
  - exact Hrep.
  - destruct Hlast as [H | [H H19]]; [left; exact H | right].
    split; [exact H | lia].
Qed.

Lemma getRandomIndex_first_fresh_draw_witness :
  getRandomIndex quarters 20 (lit "one") (sample_page sample_quotes)
  = (Return (draw quarters (sample_page sample_quotes) 2),
     set_randomDraws (randomDraws (sample_page sample_quotes) + 3)
       (set_selectorCalls
          (selectorCalls (sample_page sample_quotes) ++ [RandomSelector])
          (sample_page sample_quotes))).
Proof.
  apply (getRandomIndex_first_fresh_draw quarters 20 (lit "one")
           (sample_page sample_quotes) 2).
  - reflexivity.
  - lia.
  - lia.
  - intros j Hj. exists (sample_quote "one").
    destruct j as [|[|j]]; [split; reflexivity | split; reflexivity | lia].
  - left. exists (sample_quote "two"). split; [reflexivity | discriminate].
Defined.

Lemma getIndex_In (qs : collection) (index : number) (quote : Quote) :
  getIndex qs index = Some quote -> In (Some quote) qs.
Proof.
  destruct index as [i|]; cbn [getIndex]; [|discriminate].
  destruct (i <? 0); [discriminate|].
  destruct (nth_error qs (Z.to_nat i)) as [entry|] eqn:E; [|discriminate].
  intros ->. exact (nth_error_In _ _ E).
Qed.

Lemma draw_in_range (random : nat -> Float.unit_double) (st : page)
  (k : nat) :
  0 < length_of st -> 0 <= draw random st k < length_of st.
Proof. intros Hlen. apply floor_random_in_range. exact Hlen. Qed.

(** When no quote of the collection has the text [currentText] (the page
    shows something else), one draw is made and returned. *)
Theorem getRandomIndex_single_draw
  (random : nat -> Float.unit_double) (fuel : nat) (currentText : jsstring)
  (st : page) :
  1 < length_of st -> (0 < fuel)%nat -> all_present (quotes st) = true ->
  (forall quote, In (Some quote) (quotes st) -> text quote <> currentText) ->
  getRandomIndex random fuel currentText st
  = (Return (draw random st 0),
     set_randomDraws (randomDraws st + 1)
       (set_selectorCalls (selectorCalls st ++ [RandomSelector]) st)).
Proof.
  intros Hlen Hfuel Hall Hnone. rewrite getRandomIndex_unfold. cbv zeta.
  destruct (length_of st <=? 1) eqn:E; [apply Z.leb_le in E; lia|].
  apply (randomLoop_first_accept random currentText 0 fuel 0
           (set_selectorCalls (selectorCalls st ++ [RandomSelector]) st));
    [exact Hfuel | lia | intros j Hj; lia |].
  left. cbn [quotes set_selectorCalls].
  destruct (getIndex_present (quotes st) (draw random st 0) Hall)
    as [q Hq]; [apply draw_in_range; lia|].
  exists q. split; [exact Hq|]. apply Hnone. exact (getIndex_In _ _ _ Hq).
Qed.

Lemma getRandomIndex_single_draw_witness :
  getRandomIndex quarters 20 (lit "four") (sample_page sample_quotes)
  = (Return (draw quarters (sample_page sample_quotes) 0),
     set_randomDraws (randomDraws (sample_page sample_quotes) + 1)
       (set_selectorCalls
          (selectorCalls (sample_page sample_quotes) ++ [RandomSelector])
          (sample_page sample_quotes))).
Proof.
  apply (getRandomIndex_single_draw quarters 20 (lit "four")
           (sample_page sample_quotes)).
  - reflexivity.
  - lia.
  - reflexivity.
  - intros quote [H | [H | [H | []]]]; injection H as <-; discriminate.
Defined.

(** When every quote of the collection has the text [currentText], the
    loop runs its full course: exactly 20 draws, and the 20th is
    returned. *)
Theorem getRandomIndex_all_repeat
  (random : nat -> Float.unit_double) (fuel : nat) (currentText : jsstring)
  (st : page) :
  1 < length_of st -> (20 <= fuel)%nat -> all_present (quotes st) = true ->
  (forall quote, In (Some quote) (quotes st) -> text quote = currentText) ->
  getRandomIndex random fuel currentText st
  = (Return (draw random st 19),
     set_randomDraws (randomDraws st + 20)
       (set_selectorCalls (selectorCalls st ++ [RandomSelector]) st)).
Proof.
  intros Hlen Hfuel Hall Hsame. rewrite getRandomIndex_unfold. cbv zeta.
  destruct (length_of st <=? 1) eqn:E; [apply Z.leb_le in E; lia|].
  assert (Hrep : forall j, repeats (quotes st) currentText
                             (draw random st j)).
  { intros j.
    destruct (getIndex_present (quotes st) (draw random st j) Hall)
      as [q Hq]; [apply draw_in_range; lia|].
    exists q. split; [exact Hq|]. apply Hsame. exact (getIndex_In _ _ _ Hq). }
  apply (randomLoop_first_accept random currentText 19 fuel 0
           (set_selectorCalls (selectorCalls st ++ [RandomSelector]) st));
    [lia | lia | intros j _; apply Hrep |].
  right. split; [apply Hrep | reflexivity].
Qed.

Lemma getRandomIndex_all_repeat_witness :
  getRandomIndex quarters 20 (lit "one")
    (sample_page [Some (sample_quote "one"); Some (sample_quote "one")])
  = (Return (draw quarters
               (sample_page [Some (sample_quote "one");
                             Some (sample_quote "one")]) 19),
     set_randomDraws
       (randomDraws
          (sample_page [Some (sample_quote "one");
                        Some (sample_quote "one")]) + 20)
       (set_selectorCalls
          (selectorCalls
             (sample_page [Some (sample_quote "one");
                           Some (sample_quote "one")])
             ++ [RandomSelector])
          (sample_page [Some (sample_quote "one");
                        Some (sample_quote "one")]))).
Proof.
  apply (getRandomIndex_all_repeat quarters 20 (lit "one")
           (sample_page [Some (sample_quote "one");
                         Some (sample_quote "one")])).
  - reflexivity.
  - lia.
  - reflexivity.
  - intros quote [H | [H | []]]; injection H as <-; reflexivity.
Defined.

(** ** Showing a quote *)

Lemma slice_1_m1_quoted (t : jsstring) : slice (quoted t) 1 (-1) = t.
Proof.
  unfold slice. change (1 <? 0) with false. change (-1 <? 0) with true.
  cbv iota.
  assert (Hlen : List.length (quoted t) = S (S (List.length t)))
    by (unfold quoted; rewrite !length_app; cbn; lia).
  assert (E1 : Z.to_nat (Z.min 1 (Z.of_nat (List.length (quoted t))))
               = 1%nat) by lia.
  assert (E2 : Z.to_nat
                 (Z.max (Z.max (Z.of_nat (List.length (quoted t)) + -1) 0
                         - Z.min 1 (Z.of_nat (List.length (quoted t)))) 0)
               = List.length t) by lia.
  rewrite E1, E2. unfold quoted. cbn [app skipn].
  rewrite firstn_app, Nat.sub_diag, firstn_all. cbn [firstn].
  apply app_nil_r.
Qed.

(** Line 89 undoes line 69: slicing off the first and the last code unit
    of the shown text gives back the quote text; and a text of at most
    two code units gives the empty string. *)
Theorem slice_quoted (t : jsstring) :
  slice (quoted t) 1 (-1) = t /\
  (forall s, (List.length s <= 2)%nat -> slice s 1 (-1) = []).
Proof.
  split; [apply slice_1_m1_quoted|].
  intros s Hs. unfold slice.
  change (1 <? 0) with false. change (-1 <? 0) with true. cbv iota.
  assert (E : Z.to_nat
                (Z.max (Z.max (Z.of_nat (List.length s) + -1) 0
                        - Z.min 1 (Z.of_nat (List.length s))) 0) = 0%nat)
    by lia.
  rewrite E. reflexivity.
Qed.

Lemma classList_remove_hidden (e : element) :
  hidden (classList_remove "visible" e).
Proof.
  unfold hidden, classList_remove. cbn [classList]. intros H.
  apply filter_In in H. destruct H as [_ H].
  rewrite String.eqb_refl in H. discriminate.
Qed.

Lemma classList_add_shown (e : element) :
  shown (classList_add "visible" e).
Proof. apply classList_add_In. Qed.

Lemma runCallback_SwapText (quote : Quote) (st : page) :
  runCallback (SwapText quote) st
  = (Return tt,
     set_frames (frames st ++ [MakeVisible])
       (set_quoteCredit
          (set_textContent (rendered_credit quote st) (quoteCredit st))
          (set_quoteText
             (set_textContent (quoted (text quote)) (quoteText st)) st))).
Proof.
  unfold rendered_credit.
  unfold runCallback, bind, on_quoteText, on_quoteCredit,
    requestAnimationFrame, bind, get, modify, ret.
  destruct (album quote) as [a|]; [|reflexivity].
  destruct (negb (string_eqb a []) && negb (string_eqb a (lit "Single")));
    reflexivity.
Qed.

Lemma rendered_credit_any (quote : Quote) (st st' : page) :
  rendered_credit quote st = rendered_credit quote st'.
Proof. rewrite !runCallback_credit. reflexivity. Qed.

(** [displayQuote] at an index that holds a quote, on a page with no
    callback pending: both regions are hidden first with the old text
    still in place; the timer callback swaps in the quoted text and the
    credit while they are hidden; the frame callback shows them; nothing
    is left pending, and the text read back by line 89 is the quote's. *)
Theorem displayQuote_shows (index : number) (st : page) (quote : Quote) :
  timers st = [] -> frames st = [] ->
  getIndex (quotes st) index = Some quote ->
  (hidden (quoteText (displayed_1 index st)) /\
   hidden (quoteCredit (displayed_1 index st)) /\
   textContent (quoteText (displayed_1 index st))
   = textContent (quoteText st) /\
   timers (displayed_1 index st) = [(SwapText quote, 300)]) /\
  (hidden (quoteText (displayed_2 index st)) /\
   hidden (quoteCredit (displayed_2 index st)) /\
   textContent (quoteText (displayed_2 index st)) = quoted (text quote)) /\
  (shown (quoteText (displayed_3 index st)) /\
   shown (quoteCredit (displayed_3 index st)) /\
   textContent (quoteText (displayed_3 index st)) = quoted (text quote) /\
   textContent (quoteCredit (displayed_3 index st))
   = rendered_credit quote st /\
   timers (displayed_3 index st) = [] /\
   frames (displayed_3 index st) = [] /\
   slice (textContent (quoteText (displayed_3 index st))) 1 (-1)
   = text quote).
Proof.
  intros Ht Hf Hq.
  assert (E1 : displayed_1 index st
               = set_timers [(SwapText quote, 300)]
                   (set_quoteCredit
                      (classList_remove "visible" (quoteCredit st))
                      (set_quoteText
                         (classList_remove "visible" (quoteText st)) st))).
  { unfold displayed_1. rewrite displayQuote_unfold, Hq, Ht. reflexivity. }
  assert (E2 : displayed_2 index st
               = set_frames [MakeVisible]
                   (set_quoteCredit
                      (set_textContent (rendered_credit quote st)
                         (classList_remove "visible" (quoteCredit st)))
                      (set_quoteText
                         (set_textContent (quoted (text quote))
                            (classList_remove "visible" (quoteText st)))
                         (set_timers [] st)))).
  { unfold displayed_2. rewrite E1. unfold fireTimeout, bind, get, modify.
    cbn [timers set_timers]. rewrite runCallback_SwapText.
    cbn [snd frames set_timers set_quoteCredit set_quoteText].
    rewrite Hf, (rendered_credit_any quote _ st). reflexivity. }
  assert (E3 : displayed_3 index st
               = set_quoteCredit
                   (classList_add "visible"
                      (set_textContent (rendered_credit quote st)
                         (classList_remove "visible" (quoteCredit st))))
                   (set_quoteText
                      (classList_add "visible"
                         (set_textContent (quoted (text quote))
                            (classList_remove "visible" (quoteText st))))
                      (set_frames [] (set_timers [] st)))).
  { unfold displayed_3. rewrite E2. reflexivity. }
  rewrite E1, E2, E3.
  cbn [quoteText quoteCredit timers frames set_timers set_frames
         set_quoteText set_quoteCredit].
  split; [|split].
  - split; [apply classList_remove_hidden|].
    split; [apply classList_remove_hidden|]. split; reflexivity.
  - split; [apply (classList_remove_hidden (quoteText st))|].
    split; [apply (classList_remove_hidden (quoteCredit st))|]. reflexivity.
  - split; [apply classList_add_shown|].
    split; [apply classList_add_shown|].
    split; [reflexivity|]. split; [reflexivity|].
    split; [reflexivity|]. split; [reflexivity|].
    apply slice_1_m1_quoted.
Qed.

Lemma displayQuote_shows_witness :
  shown (quoteText (displayed_3 (Num 1) (sample_page sample_quotes))) /\
  textContent (quoteText (displayed_3 (Num 1) (sample_page sample_quotes)))
  = quoted (lit "two").
Proof.
  pose proof (displayQuote_shows (Num 1) (sample_page sample_quotes)
                (sample_quote "two") eq_refl eq_refl eq_refl)
    as (_ & _ & Hs & _ & Ht & _).
  split; [exact Hs | exact Ht].
Defined.

Lemma fireTimeout_SwapText (quote : Quote) (delay : Z)
  (rest : list (callback * Z)) (st : page) :
  timers st = (SwapText quote, delay) :: rest ->
  fireTimeout st
  = (Return tt,
     set_frames (frames st ++ [MakeVisible])
       (set_quoteCredit
          (set_textContent (rendered_credit quote st) (quoteCredit st))
          (set_quoteText
             (set_textContent (quoted (text quote)) (quoteText st))
             (set_timers rest st)))).
Proof.
  intros Ht. unfold fireTimeout, bind, get, modify. rewrite Ht.
  rewrite runCallback_SwapText.
  rewrite (rendered_credit_any quote _ st). reflexivity.
Qed.

Lemma fireFrame_MakeVisible (rest : list callback) (st : page) :
  frames st = MakeVisible :: rest ->
  fireFrame st
  = (Return tt,
     set_quoteCredit (classList_add "visible" (quoteCredit st))
       (set_quoteText (classList_add "visible" (quoteText st))
          (set_frames rest st))).
Proof.
  intros Hf. unfold fireFrame, bind, get, modify. rewrite Hf. reflexivity.
Qed.

Lemma after_cons (random : nat -> Float.unit_double) (fuel : nat)
  (ev : event) (evs : list event) (st : page) :
  after random fuel (ev :: evs) st
  = after random fuel evs (snd (handle random fuel ev st)).
Proof. reflexivity. Qed.

(** Two [displayQuote] calls in a row, before any callback ran: when the
    two timers and the two frame callbacks have fired, in either order
    the browser can interleave them, the page shows the quote of the
    second call. *)
Theorem displayQuote_last_wins (random : nat -> Float.unit_double)
  (fuel : nat) (i j : number) (st : page) (qi qj : Quote) :
  timers st = [] -> frames st = [] ->
  getIndex (quotes st) i = Some qi -> getIndex (quotes st) j = Some qj ->
  let st2 := snd (displayQuote j (snd (displayQuote i st))) in
  forall evs,
    evs = [TimerFires; TimerFires; FrameFires; FrameFires] \/
    evs = [TimerFires; FrameFires; TimerFires; FrameFires] ->
    textContent (quoteText (after random fuel evs st2)) = quoted (text qj) /\
    textContent (quoteCredit (after random fuel evs st2))
    = rendered_credit qj st /\
    shown (quoteText (after random fuel evs st2)) /\
    shown (quoteCredit (after random fuel evs st2)) /\
    timers (after random fuel evs st2) = [] /\
    frames (after random fuel evs st2) = [].
Proof.
  intros Ht Hf Hi Hj st2 evs Hevs.
  assert (E2 : st2
               = set_timers [(SwapText qi, 300); (SwapText qj, 300)]
                   (set_quoteCredit
                      (classList_remove "visible"
                         (classList_remove "visible" (quoteCredit st)))
                      (set_quoteText
                         (classList_remove "visible"
                            (classList_remove "visible" (quoteText st)))
                         st))).
  { unfold st2. rewrite (displayQuote_unfold i st), Hi. cbn [snd].
    rewrite displayQuote_unfold.
    cbn [quotes set_timers set_quoteCredit set_quoteText].
    rewrite Hj, Ht. reflexivity. }
  rewrite E2. clear E2 st2.
  destruct Hevs as [-> | ->].
  - rewrite after_cons. cbn [handle].
    rewrite (fireTimeout_SwapText qi 300 [(SwapText qj, 300)]) by reflexivity.
    cbn [snd]. rewrite after_cons. cbn [handle].
    rewrite (fireTimeout_SwapText qj 300 []) by reflexivity.
    cbn [snd frames timers quoteText quoteCredit set_timers set_frames
           set_quoteText set_quoteCredit]. rewrite Hf. cbn [app].
    rewrite after_cons. cbn [handle].
    rewrite (fireFrame_MakeVisible [MakeVisible]) by reflexivity.
    cbn [snd]. rewrite after_cons. cbn [handle].
    rewrite (fireFrame_MakeVisible []) by reflexivity.
    cbn [snd after fold_left frames timers quoteText quoteCredit set_timers
           set_frames set_quoteText set_quoteCredit].
    rewrite (rendered_credit_any qj _ st).
    repeat split; apply classList_add_shown.
  - rewrite after_cons. cbn [handle].
    rewrite (fireTimeout_SwapText qi 300 [(SwapText qj, 300)]) by reflexivity.
    cbn [snd frames timers quoteText quoteCredit set_timers set_frames
           set_quoteText set_quoteCredit]. rewrite Hf. cbn [app].
    rewrite after_cons. cbn [handle].
    rewrite (fireFrame_MakeVisible []) by reflexivity.
    cbn [snd]. rewrite after_cons. cbn [handle].
    rewrite (fireTimeout_SwapText qj 300 []) by reflexivity.
    cbn [snd frames timers quoteText quoteCredit set_timers set_frames
           set_quoteText set_quoteCredit app].
    rewrite after_cons. cbn [handle].
    rewrite (fireFrame_MakeVisible []) by reflexivity.
    cbn [snd after fold_left frames timers quoteText quoteCredit set_timers
           set_frames set_quoteText set_quoteCredit].
    rewrite (rendered_credit_any qj _ st).
    repeat split; apply classList_add_shown.
Qed.

Lemma displayQuote_last_wins_witness :
  textContent
    (quoteText
       (after quarters 20 [TimerFires; FrameFires; TimerFires; FrameFires]
          (snd (displayQuote (Num 2)
                  (snd (displayQuote (Num 0)
                          (sample_page sample_quotes)))))))
  = quoted (lit "three").
Proof.
  destruct (displayQuote_last_wins quarters 20 (Num 0) (Num 2)
              (sample_page sample_quotes) (sample_quote "one")
              (sample_quote "three") eq_refl eq_refl eq_refl eq_refl
              [TimerFires; FrameFires; TimerFires; FrameFires]
              (or_intror eq_refl)) as [H _].
  exact H.
Defined.

(** ** What a shuffle does to the page *)

Lemma set_randomDraws_same (st : page) :
  set_randomDraws (randomDraws st + 0) st = st.
Proof. destruct st. unfold set_randomDraws. cbn. f_equal. lia. Qed.

Lemma set_defaultPrevented_same (st : page) :
  set_defaultPrevented (defaultPrevented st) st = st.
Proof. destruct st. reflexivity. Qed.

(** The loop changes nothing but the count of draws, whatever the fuel
    and the outcome. *)
Lemma randomLoop_frame (random : nat -> Float.unit_double) (n : nat) :
  forall (currentText : jsstring) (attempts : Z) (st : page),
    attempts < 20 ->
    exists d : nat,
      attempts + Z.of_nat d <= 20 /\
      snd (randomLoop random n currentText attempts st)
      = set_randomDraws (randomDraws st + d) st.
Proof.
  induction n as [|n IH]; intros cur attempts st Hatt.
  - exists 0%nat. split; [lia|]. cbn. symmetry. apply set_randomDraws_same.
  - rewrite randomLoop_S. cbv zeta.
    assert (Hone : set_randomDraws (S (randomDraws st)) st
                   = set_randomDraws (randomDraws st + 1) st)
      by (unfold set_randomDraws; f_equal; lia).
    destruct (getIndex _ _) as [quote|];
      [|exists 1%nat; split; [lia | exact Hone]].
    destruct (string_eqb (text quote) cur && (attempts + 1 <? 20)) eqn:Ec;
      [|exists 1%nat; split; [lia | exact Hone]].
    apply andb_prop in Ec. destruct Ec as [_ Hlt]. apply Z.ltb_lt in Hlt.
    destruct (IH cur (attempts + 1)
                (set_randomDraws (S (randomDraws st)) st) Hlt)
      as (d & Hd & Hst).
    exists (S d). split; [lia|]. rewrite Hst.
    unfold set_randomDraws. cbn. f_equal. lia.
Qed.

Lemma onShuffle_unfold (random : nat -> Float.unit_double) (fuel : nat)
  (st : page) :
  onShuffle random fuel st =
  let st1 := set_dailyLabel (set_textContent (lit "random") (dailyLabel st))
               (set_isDaily false st) in
  match getRandomIndex random fuel
          (slice (textContent (quoteText st)) 1 (-1)) st1 with
  | (Return idx, st2) => displayQuote (Num idx) st2
  | (Throw e, st2) => (Throw e, st2)
  | (OutOfFuel, st2) => (OutOfFuel, st2)
  end.
Proof.
  unfold onShuffle, bind at 1 2 3, modify, on_dailyLabel, bind at 1, get,
    modify.
  cbn [quoteText set_dailyLabel set_isDaily dailyLabel].
  unfold bind.
  destruct (getRandomIndex _ _ _ _) as [[idx | e |] st2]; reflexivity.
Qed.

(** Whatever its outcome, [onShuffle] leaves the page [shuffled]: with at
    most 20 more draws, and at most one more timer, for a quote of the
    collection. *)
Lemma onShuffle_shuffled (random : nat -> Float.unit_double) (fuel : nat)
  (st : page) :
  exists (d : nat) (picked : option Quote),
    (d <= 20)%nat /\
    (forall quote, picked = Some quote -> In (Some quote) (quotes st)) /\
    snd (onShuffle random fuel st) = shuffled st d picked.
Proof.
  rewrite onShuffle_unfold. cbv zeta.
  set (st1 := set_dailyLabel _ (set_isDaily false st)).
  set (cur := slice _ 1 (-1)).
  rewrite getRandomIndex_unfold. cbv zeta.
  set (st0 := set_selectorCalls _ st1).
  destruct (length_of st1 <=? 1) eqn:Elen.
  - assert (E0 : set_randomDraws (randomDraws st + 0)
                   (set_selectorCalls (selectorCalls st ++ [RandomSelector])
                      st1) = st0)
      by (unfold st0, st1, set_randomDraws; cbn; rewrite Nat.add_0_r;
          reflexivity).
    rewrite displayQuote_unfold.
    destruct (getIndex (quotes st0) (Num 0)) as [quote|] eqn:Eq.
    + exists 0%nat, (Some quote). split; [lia|]. split.
      * intros q [= <-]. exact (getIndex_In _ _ _ Eq).
      * cbn [snd]. unfold shuffled. cbv zeta. fold st1. rewrite E0.
        reflexivity.
    + exists 0%nat, None. split; [lia|]. split; [discriminate|].
      cbn [snd]. unfold shuffled. cbv zeta. fold st1. rewrite E0.
      reflexivity.
  - destruct (randomLoop_frame random fuel cur 0 st0 ltac:(lia))
      as (d & Hd & Hst).
    destruct (randomLoop random fuel cur 0 st0) as [[idx | e |] st2] eqn:Er;
      cbn [snd] in Hst; subst st2.
    + rewrite displayQuote_unfold.
      cbn [quotes set_randomDraws].
      destruct (getIndex (quotes st0) (Num idx)) as [quote|] eqn:Eq.
      * exists d, (Some quote). split; [lia|]. split.
        -- intros q [= <-]. exact (getIndex_In _ _ _ Eq).
        -- reflexivity.
      * exists d, None. split; [lia|]. split; [discriminate|]. reflexivity.
    + exists d, None. split; [lia|]. split; [discriminate|]. reflexivity.
    + exists d, None. split; [lia|]. split; [discriminate|]. reflexivity.
Qed.

(** Whatever the collection, the fuel and the outcome (an exception of
    the selector included), after [onShuffle] the mode flag is off and
    the label reads ["random"]; the collection, the listeners and the
    texts of both regions are as before; at most 20 draws were made and
    at most one timer was added, for a quote of the collection. *)
Theorem onShuffle_effects (random : nat -> Float.unit_double) (fuel : nat)
  (st : page) :
  let st' := snd (onShuffle random fuel st) in
  isDaily st' = false /\
  textContent (dailyLabel st') = lit "random" /\
  quotes st' = quotes st /\
  shuffleClickListener st' = shuffleClickListener st /\
  keydownListener st' = keydownListener st /\
  textContent (quoteText st') = textContent (quoteText st) /\
  textContent (quoteCredit st') = textContent (quoteCredit st) /\
  frames st' = frames st /\
  (randomDraws st <= randomDraws st' <= randomDraws st + 20)%nat /\
  selectorCalls st' = selectorCalls st ++ [RandomSelector] /\
  (timers st' = timers st \/
   exists quote, In (Some quote) (quotes st) /\
                 timers st' = timers st ++ [(SwapText quote, 300)] /\
                 hidden (quoteText st') /\ hidden (quoteCredit st')).
Proof.
  destruct (onShuffle_shuffled random fuel st) as (d & picked & Hd & Hin & E).
  cbv zeta. rewrite E. unfold shuffled.
  destruct picked as [quote|];
    cbn [isDaily dailyLabel quotes shuffleClickListener keydownListener
           quoteText quoteCredit frames randomDraws selectorCalls timers
           set_timers set_quoteCredit set_quoteText set_randomDraws
           set_selectorCalls set_dailyLabel set_isDaily textContent
           set_textContent classList_remove];
    repeat (split; [first [reflexivity | lia]|]).
  - right. exists quote. split; [apply Hin; reflexivity|].
    split; [reflexivity|].
    split; [apply (classList_remove_hidden (quoteText st))
           | apply (classList_remove_hidden (quoteCredit st))].
  - left. reflexivity.
Qed.

(** ** Sessions: a page load followed by any events *)

Lemma runCallback_MakeVisible (st : page) :
  runCallback MakeVisible st
  = (Return tt,
     set_quoteCredit (classList_add "visible" (quoteCredit st))
       (set_quoteText (classList_add "visible" (quoteText st)) st)).
Proof. reflexivity. Qed.

(** Every event is one [step]. *)
Lemma handle_step (random : nat -> Float.unit_double) (fuel : nat)
  (ev : event) (st : page) :
  step st (snd (handle random fuel ev st)).
Proof.
  destruct ev as [|e| |]; cbn [handle].
  - unfold click, bind, get.
    destruct (shuffleClickListener st).
    + destruct (onShuffle_shuffled random fuel st)
        as (d & picked & Hd & Hin & E).
      rewrite E. rewrite <- (set_defaultPrevented_same st) at 2.
      apply step_shuffle; assumption.
    + cbn. rewrite <- (set_defaultPrevented_same st) at 2. apply step_idle.
  - unfold keydown, bind, modify, get.
    cbn [keydownListener set_defaultPrevented].
    destruct (keydownListener st); [|apply step_idle].
    unfold keydownHandler.
    destruct (string_eqb (key e) (lit " ") && targetIsBody e);
      [|apply step_idle].
    unfold bind, modify.
    destruct (onShuffle_shuffled random fuel
                (set_defaultPrevented true (set_defaultPrevented false st)))
      as (d & picked & Hd & Hin & E).
    rewrite E. apply (step_shuffle st true d picked Hd Hin).
  - unfold fireTimeout, bind, get.
    destruct (timers st) as [|[f delay] rest] eqn:Et.
    + cbn. rewrite <- (set_defaultPrevented_same st) at 2. apply step_idle.
    + unfold modify. apply (step_timer st f delay rest Et).
  - unfold fireFrame, bind, get.
    destruct (frames st) as [|f rest] eqn:Ef.
    + cbn. rewrite <- (set_defaultPrevented_same st) at 2. apply step_idle.
    + unfold modify. apply (step_frame st f rest Ef).
Qed.

Lemma after_invariant (random : nat -> Float.unit_double) (fuel : nat)
  (P : page -> Prop) :
  (forall st st', P st -> step st st' -> P st') ->
  forall evs st, P st -> P (after random fuel evs st).
Proof.
  intros Hstep evs. induction evs as [|ev evs IH]; intros st HP;
    [exact HP|].
  rewrite after_cons. apply IH. apply (Hstep st); [exact HP|].
  apply handle_step.
Qed.

Lemma step_keeps (st st' : page) :
  step st st' ->
  quotes st' = quotes st /\
  shuffleClickListener st' = shuffleClickListener st /\
  keydownListener st' = keydownListener st.
Proof.
  intros [b | b d [quote|] Hd Hin | [quote|] delay rest Et
          | [quote|] rest Ef];
    try rewrite runCallback_SwapText; try rewrite runCallback_MakeVisible;
    repeat split; reflexivity.
Qed.

(** No event changes the collection or the listeners. *)
Theorem session_keeps_collection (random : nat -> Float.unit_double)
  (fuel : nat) (evs : list event) (st : page) :
  quotes (after random fuel evs st) = quotes st /\
  shuffleClickListener (after random fuel evs st) = shuffleClickListener st /\
  keydownListener (after random fuel evs st) = keydownListener st.
Proof.
  apply (after_invariant random fuel
           (fun st' => quotes st' = quotes st /\
                       shuffleClickListener st' = shuffleClickListener st /\
                       keydownListener st' = keydownListener st));
    [|repeat split].
  intros s s' (H1 & H2 & H3) Hs.
  destruct (step_keeps s s' Hs) as (K1 & K2 & K3).
  repeat split; congruence.
Qed.

Lemma step_mode (st0 st st' : page) :
  mode_of st0 st -> step st st' -> mode_of st0 st'.
Proof.
  intros Hm [b | b d picked Hd Hin | [quote|] delay rest Et
             | [quote|] rest Ef];
    try rewrite runCallback_SwapText; try rewrite runCallback_MakeVisible;
    try exact Hm.
  right. unfold shuffled.
  assert (El : set_textContent (lit "random") (dailyLabel st)
               = set_textContent (lit "random") (dailyLabel st0)).
  { destruct Hm as [[_ E] | [_ E]]; rewrite E; reflexivity. }
  destruct picked;
    cbn [isDaily dailyLabel set_timers set_quoteCredit set_quoteText
           set_randomDraws set_selectorCalls set_dailyLabel set_isDaily
           set_defaultPrevented];
    rewrite El; split; reflexivity.
Qed.

(** The mode of a session: until the first shuffle the flag and the
    label are as loaded; from then on, whatever happens, the flag is off
    and the label reads ["random"]. A page never goes back to daily. *)
Theorem session_mode (random : nat -> Float.unit_double) (fuel : nat)
  (QUOTES_DATA : option collection) (today : utc_date) (qt qc dl : element)
  (evs : list event) :
  let st := session random fuel QUOTES_DATA today qt qc dl evs in
  ((isDaily st = true /\ dailyLabel st = dl) \/
   (isDaily st = false /\
    dailyLabel st = set_textContent (lit "random") dl)) /\
  (forall more, isDaily st = false ->
                isDaily (after random fuel more st) = false).
Proof.
  cbv zeta. unfold session.
  set (st0 := snd (script QUOTES_DATA today (loaded qt qc dl))).
  assert (H0 : isDaily st0 = true /\ dailyLabel st0 = dl).
  { unfold st0, script, bind, modify, get, ret.
    cbn [quotes set_quotes set_isDaily].
    destruct (Z.of_nat (List.length _) =? 0); [split; reflexivity|].
    unfold getDailyIndex, called, bind, modify, get, ret.
    rewrite displayQuote_unfold.
    destruct (getIndex _ _); split; reflexivity. }
  destruct H0 as [Hd Hl]. split.
  - assert (Hm : mode_of st0 (after random fuel evs st0)).
    { apply (after_invariant random fuel (mode_of st0));
        [apply step_mode | left; split; reflexivity]. }
    destruct Hm as [[E1 E2] | [E1 E2]]; [left | right];
      rewrite E1, E2; auto. rewrite Hl. auto.
  - intros more Hoff.
    assert (Hm : mode_of (after random fuel evs st0)
                   (after random fuel more (after random fuel evs st0))).
    { apply (after_invariant random fuel (mode_of _));
        [apply step_mode | left; split; reflexivity]. }
    destruct Hm as [[E1 _] | [E1 _]]; congruence.
Qed.

Lemma step_pending (st st' : page) :
  pending_ok st -> step st st' -> pending_ok st'.
Proof.
  intros [Ht Hf] [b | b d picked Hd Hin | f delay rest Et | f rest Ef].
  - split; [exact Ht | exact Hf].
  - split; [|destruct picked; exact Hf].
    destruct picked as [quote|]; [|exact Ht].
    intros f delay Hin'. cbn in Hin'. apply in_app_or in Hin'.
    destruct Hin' as [Hin' | [[= <- <-] | []]]; [exact (Ht _ _ Hin')|].
    exists quote. repeat split. apply Hin. reflexivity.
  - destruct (Ht f delay) as (quote & -> & -> & Hq);
      [rewrite Et; left; reflexivity|].
    rewrite runCallback_SwapText. split.
    + intros f d Hin. apply Ht. rewrite Et. right. exact Hin.
    + intros f Hin. cbn in Hin. apply in_app_or in Hin.
      destruct Hin as [Hin | [<- | []]]; [exact (Hf _ Hin) | reflexivity].
  - rewrite (Hf f) by (rewrite Ef; left; reflexivity).
    rewrite runCallback_MakeVisible. split.
    + exact Ht.
    + intros g Hin. apply Hf. rewrite Ef. right. exact Hin.
Qed.

Lemma step_shows (st0 st st' : page) :
  pending_ok st -> shows_of st0 st -> step st st' -> shows_of st0 st'.
Proof.
  intros [Ht Hf] Hs [b | b d picked Hd Hin | f delay rest Et | f rest Ef].
  - destruct Hs as [Hs | (q & Hq & H1 & H2)]; [left; exact Hs | right].
    exists q. rewrite (rendered_credit_any q _ st). auto.
  - assert (E : quotes (shuffled (set_defaultPrevented b st) d picked)
                = quotes st /\
                textContent
                  (quoteText (shuffled (set_defaultPrevented b st) d picked))
                = textContent (quoteText st) /\
                textContent
                  (quoteCredit
                     (shuffled (set_defaultPrevented b st) d picked))
                = textContent (quoteCredit st))
      by (destruct picked; repeat split; reflexivity).
    destruct E as (E0 & E1 & E2).
    destruct Hs as [[H1 H2] | (q & Hq & H1 & H2)].
    + left. split; congruence.
    + right. exists q. rewrite E0, E1, E2.
      rewrite (rendered_credit_any q _ st). auto.
  - destruct (Ht f delay) as (quote & -> & -> & Hq);
      [rewrite Et; left; reflexivity|].
    rewrite runCallback_SwapText. right. exists quote.
    split; [exact Hq|]. split; [reflexivity|].
    apply rendered_credit_any.
  - rewrite (Hf f) by (rewrite Ef; left; reflexivity).
    rewrite runCallback_MakeVisible.
    destruct Hs as [Hs | (q & Hq & H1 & H2)]; [left; exact Hs | right].
    exists q. rewrite (rendered_credit_any q _ st). auto.
Qed.

(** What the script leaves, by cases on the collection: the empty page,
    or the daily page for the quote at the daily index, or (when the
    entry at the daily index is not a quote) nothing displayed. *)
Lemma script_result (QUOTES_DATA : option collection) (today : utc_date)
  (qt qc dl : element) :
  let qs := data_of QUOTES_DATA in
  let st := snd (script QUOTES_DATA today (loaded qt qc dl)) in
  (qs = [] /\ st = empty_page qt qc dl) \/
  (exists i, dailyIndex (todayString today) (Z.of_nat (List.length qs))
             = Num i /\
             0 <= i < Z.of_nat (List.length qs) /\
             match getIndex qs (Num i) with
             | Some quote => st = daily_page qs quote qt qc dl
             | None => timers st = [] /\ frames st = [] /\ quotes st = qs /\
                       quoteText st = qt /\ quoteCredit st = qc
             end).
Proof.
  cbv zeta. destruct (data_of QUOTES_DATA) as [|entry qs] eqn:Eqs.
  - left. split; [reflexivity|].
    rewrite script_no_data; [reflexivity|].
    destruct QUOTES_DATA as [qs|]; [right | left; reflexivity].
    unfold data_of in Eqs. rewrite Eqs. reflexivity.
  - right.
    assert (Hlen : 0 < Z.of_nat (List.length (entry :: qs)))
      by (cbn [List.length]; lia).
    destruct (rem_in_range (hashString (todayString today))
                (Z.of_nat (List.length (entry :: qs)))
                (hashString_nonneg _) Hlen) as (i & Hi & Hrange).
    exists i. split; [exact Hi|]. split; [exact Hrange|].
    unfold script, bind, modify, get, ret.
    cbn [quotes set_quotes set_isDaily]. fold (data_of QUOTES_DATA).
    rewrite Eqs.
    destruct (Z.of_nat (List.length (entry :: qs)) =? 0) eqn:E0;
      [apply Z.eqb_eq in E0; lia|].
    unfold getDailyIndex, called, bind, modify, get, ret.
    cbn [quotes set_selectorCalls set_quotes set_isDaily].
    unfold dailyIndex in Hi. unfold dailyIndex. rewrite Hi.
    rewrite displayQuote_unfold.
    cbn [quotes set_selectorCalls set_quotes set_isDaily].
    destruct (getIndex (entry :: qs) (Num i)) as [quote|];
      [reflexivity | repeat split].
Qed.

(** In any session the two text regions hold what the document had, or
    the fallback message (only when there are no quotes), or the text
    and the credit of one and the same quote of the collection. *)
Theorem session_shows_only_quotes (random : nat -> Float.unit_double)
  (fuel : nat) (QUOTES_DATA : option collection) (today : utc_date)
  (qt qc dl : element) (evs : list event) :
  let st := session random fuel QUOTES_DATA today qt qc dl evs in
  (textContent (quoteCredit st) = textContent qc /\
   (textContent (quoteText st) = textContent qt \/
    (data_of QUOTES_DATA = [] /\
     textContent (quoteText st) = lit "No quotes available yet."))) \/
  (exists quote,
      In (Some quote) (data_of QUOTES_DATA) /\
      textContent (quoteText st) = quoted (text quote) /\
      textContent (quoteCredit st) = rendered_credit quote st).
Proof.
  cbv zeta. unfold session.
  set (st0 := snd (script QUOTES_DATA today (loaded qt qc dl))).
  assert (H0 : pending_ok st0 /\ quotes st0 = data_of QUOTES_DATA /\
               textContent (quoteCredit st0) = textContent qc /\
               (textContent (quoteText st0) = textContent qt \/
                (data_of QUOTES_DATA = [] /\
                 textContent (quoteText st0)
                 = lit "No quotes available yet."))).
  { pose proof (script_result QUOTES_DATA today qt qc dl) as Hr.
    cbv zeta in Hr. fold st0 in Hr.
    destruct Hr as [[Hqs ->] | (i & Hi & Hrange & Hr)].
    - split; [split; [intros f delay [] | intros f []]|].
      split; [symmetry; exact Hqs|]. split; [reflexivity|].
      right. split; [exact Hqs | reflexivity].
    - destruct (getIndex (data_of QUOTES_DATA) (Num i)) as [quote|] eqn:Eq.
      + rewrite Hr. split.
        * split; [|intros ? []].
          intros f delay [[= <- <-] | []]. exists quote.
          repeat split. exact (getIndex_In _ _ _ Eq).
        * split; [reflexivity|]. split; [reflexivity|]. left. reflexivity.
      + destruct Hr as (Ht & Hf & Hq & Hqt & Hqc). split.
        * split; [rewrite Ht; intros f delay [] | rewrite Hf; intros f []].
        * split; [exact Hq|]. rewrite Hqt, Hqc.
          split; [reflexivity | left; reflexivity]. }
  destruct H0 as (Hp & Hq & Hc & Ht).
  assert (Hinv : pending_ok (after random fuel evs st0) /\
                 shows_of st0 (after random fuel evs st0) /\
                 quotes (after random fuel evs st0) = quotes st0).
  { apply (after_invariant random fuel
             (fun st => pending_ok st /\ shows_of st0 st /\
                        quotes st = quotes st0)).
    - intros s s' (Hp' & Hs' & Hq') Hstep.
      split; [exact (step_pending _ _ Hp' Hstep)|].
      split; [exact (step_shows _ _ _ Hp' Hs' Hstep)|].
      destruct (step_keeps _ _ Hstep) as [K _]. congruence.
    - split; [exact Hp|]. split; [left; split; reflexivity | reflexivity]. }
  destruct Hinv as (_ & [[H1 H2] | (quote & Hin & H1 & H2)] & Hq').
  - left. rewrite H1, H2. split; [exact Hc | exact Ht].
  - right. exists quote. rewrite Hq', Hq in Hin. auto.
Qed.

(** On a non-empty collection of quotes the script calls the daily
    selector only, makes no draw, hides both regions, schedules the
    quote at the daily index and registers both listeners; once the
    timer and the frame callback have fired the quote is shown. *)
Theorem script_shows_daily_quote (random : nat -> Float.unit_double)
  (fuel : nat) (qs : collection) (today : utc_date) (qt qc dl : element) :
  qs <> [] -> all_present qs = true ->
  exists i quote,
    dailyIndex (todayString today) (Z.of_nat (List.length qs)) = Num i /\
    getIndex qs (Num i) = Some quote /\
    script (Some qs) today (loaded qt qc dl)
    = (Return tt, daily_page qs quote qt qc dl) /\
    let st := after random fuel [TimerFires; FrameFires]
                (daily_page qs quote qt qc dl) in
    textContent (quoteText st) = quoted (text quote) /\
    textContent (quoteCredit st) = rendered_credit quote st /\
    shown (quoteText st) /\ shown (quoteCredit st) /\
    timers st = [] /\ frames st = [].
Proof.
  intros Hne Hall.
  pose proof (script_result (Some qs) today qt qc dl) as Hr.
  cbv zeta in Hr. cbn [data_of] in Hr.
  destruct Hr as [[Hqs _] | (i & Hi & Hrange & Hr)]; [contradiction|].
  destruct (getIndex_present qs i Hall Hrange) as [quote Hq].
  rewrite Hq in Hr. exists i, quote.
  split; [exact Hi|]. split; [exact Hq|]. split.
  - rewrite <- Hr.
    destruct (script_registers_keydown (Some qs) today (loaded qt qc dl))
      as [Hf _].
    destruct (script (Some qs) today (loaded qt qc dl)) as [o st].
    cbn [fst snd] in *. rewrite Hf. reflexivity.
  - cbv zeta. rewrite after_cons. cbn [handle].
    rewrite (fireTimeout_SwapText quote 300 []) by reflexivity.
    cbn [snd]. rewrite after_cons. cbn [handle].
    rewrite (fireFrame_MakeVisible []) by reflexivity.
    cbn [snd after fold_left frames timers quoteText quoteCredit set_timers
           set_frames set_quoteText set_quoteCredit].
    split; [reflexivity|]. split; [apply rendered_credit_any|].
    split; [apply classList_add_shown|].
    split; [apply classList_add_shown|]. split; reflexivity.
Qed.

Lemma script_shows_daily_quote_witness :
  exists i quote,
    dailyIndex (todayString sample_today)
      (Z.of_nat (List.length sample_quotes)) = Num i /\
    getIndex sample_quotes (Num i) = Some quote /\
    script (Some sample_quotes) sample_today (loaded blank blank blank)
    = (Return tt, daily_page sample_quotes quote blank blank blank) /\
    let st := after quarters 20 [TimerFires; FrameFires]
                (daily_page sample_quotes quote blank blank blank) in
    textContent (quoteText st) = quoted (text quote) /\
    textContent (quoteCredit st) = rendered_credit quote st /\
    shown (quoteText st) /\ shown (quoteCredit st) /\
    timers st = [] /\ frames st = [].
Proof.
  apply (script_shows_daily_quote quarters 20 sample_quotes sample_today
           blank blank blank).
  - discriminate.
  - reflexivity.
Defined.

Lemma displayQuote_returns (index : number) (st : page) :
  fst (displayQuote index st) = Return tt.
Proof.
  rewrite displayQuote_unfold. destruct (getIndex _ _); reflexivity.
Qed.

Lemma onShuffle_returns (random : nat -> Float.unit_double) (fuel : nat)
  (st : page) :
  (20 <= fuel)%nat -> all_present (quotes st) = true ->
  fst (onShuffle random fuel st) = Return tt.
Proof.
  intros Hfuel Hall. rewrite onShuffle_unfold. cbv zeta.
  set (st1 := set_dailyLabel _ (set_isDaily false st)).
  rewrite getRandomIndex_unfold. cbv zeta.
  set (st0 := set_selectorCalls _ st1).
  destruct (length_of st1 <=? 1) eqn:Elen; [apply displayQuote_returns|].
  apply Z.leb_gt in Elen.
  assert (Hlen0 : 0 < length_of st0)
    by (change (length_of st0) with (length_of st1); lia).
  rewrite (randomLoop_fuel random fuel _ st0 Hlen0 Hfuel).
  destruct (randomLoop_post random 20
              (slice (textContent (quoteText st)) 1 (-1)) 0 st0 Hlen0)
    as (d & _ & _ & _ & Hres); [lia | reflexivity |].
  destruct (randomLoop random 20 _ 0 st0) as [[idx | e |] st2];
    cbn [fst] in Hres.
  - apply displayQuote_returns.
  - unfold st0, st1 in Hres. cbn [quotes set_selectorCalls set_dailyLabel
      set_isDaily] in Hres. congruence.
  - contradiction.
Qed.

Lemma runCallback_returns (f : callback) (st : page) :
  fst (runCallback f st) = Return tt.
Proof.
  destruct f as [quote|];
    [rewrite runCallback_SwapText | rewrite runCallback_MakeVisible];
    reflexivity.
Qed.

Lemma handle_returns (random : nat -> Float.unit_double) (fuel : nat)
  (ev : event) (st : page) :
  (20 <= fuel)%nat -> all_present (quotes st) = true ->
  fst (handle random fuel ev st) = Return tt.
Proof.
  intros Hfuel Hall. destruct ev as [|e| |]; cbn [handle].
  - unfold click, bind, get. destruct (shuffleClickListener st);
      [apply onShuffle_returns; assumption | reflexivity].
  - unfold keydown, bind, modify, get.
    cbn [keydownListener set_defaultPrevented].
    destruct (keydownListener st); [|reflexivity].
    unfold keydownHandler.
    destruct (string_eqb (key e) (lit " ") && targetIsBody e);
      [|reflexivity].
    unfold bind, modify. apply onShuffle_returns; assumption.
  - unfold fireTimeout, bind, get.
    destruct (timers st) as [|[f delay] rest]; [reflexivity|].
    unfold modify. apply runCallback_returns.
  - unfold fireFrame, bind, get.
    destruct (frames st) as [|f rest]; [reflexivity|].
    unfold modify. apply runCallback_returns.
Qed.

(** When every entry of the collection is a quote, nothing ever throws:
    neither the script nor the handler of any event, after any events. *)
Theorem session_never_throws (random : nat -> Float.unit_double)
  (fuel : nat) (QUOTES_DATA : option collection) (today : utc_date)
  (qt qc dl : element) (evs : list event) (ev : event) :
  (20 <= fuel)%nat -> all_present (data_of QUOTES_DATA) = true ->
  fst (script QUOTES_DATA today (loaded qt qc dl)) = Return tt /\
  fst (handle random fuel ev
         (session random fuel QUOTES_DATA today qt qc dl evs)) = Return tt.
Proof.
  intros Hfuel Hall. split; [apply script_registers_keydown|].
  apply handle_returns; [exact Hfuel|]. unfold session.
  set (st0 := snd (script QUOTES_DATA today (loaded qt qc dl))).
  assert (Hq0 : quotes st0 = data_of QUOTES_DATA).
  { unfold st0, script, bind, modify, get, ret.
    cbn [quotes set_quotes set_isDaily]. fold (data_of QUOTES_DATA).
    destruct (Z.of_nat (List.length _) =? 0); [reflexivity|].
    unfold getDailyIndex, called, bind, modify, get, ret.
    rewrite displayQuote_unfold.
    destruct (getIndex _ _); reflexivity. }
  assert (Hq : quotes (after random fuel evs st0) = quotes st0).
  { apply (after_invariant random fuel (fun st => quotes st = quotes st0));
      [|reflexivity].
    intros s s' Hs Hstep. destruct (step_keeps _ _ Hstep) as [K _].
    congruence. }
  rewrite Hq, Hq0. exact Hall.
Qed.

Lemma session_never_throws_witness :
  fst (script (Some sample_quotes) sample_today (loaded blank blank blank))
  = Return tt /\
  fst (handle quarters 20 Click
         (session quarters 20 (Some sample_quotes) sample_today
            blank blank blank [Click; TimerFires; Keydown space_on_body]))
  = Return tt.
Proof.
  apply (session_never_throws quarters 20 (Some sample_quotes) sample_today
           blank blank blank [Click; TimerFires; Keydown space_on_body]
           Click).
  - lia.
  - reflexivity.
Defined.

Lemma handle_empty_state (random : nat -> Float.unit_double) (fuel : nat)
  (qt qc : element) (ev : event) (st : page) :
  empty_state qt qc st ->
  empty_state qt qc (snd (handle random fuel ev st)) /\
  fst (handle random fuel ev st) = Return tt.
Proof.
  intros (Hq & Hc & Ht & Hf & Hqt & Hqc & Hd).
  destruct st as [qt0 qc0 dl0 qs daily cl kl ts fs dp rd sc].
  cbn in Hq, Hc, Ht, Hf, Hqt, Hqc, Hd. subst.
  destruct ev as [|e| |]; cbn [handle].
  - repeat split.
  - unfold keydown, bind, modify, get.
    cbn [keydownListener set_defaultPrevented].
    destruct kl; [|repeat split].
    unfold keydownHandler.
    destruct (string_eqb (key e) (lit " ") && targetIsBody e);
      repeat split.
  - repeat split.
  - repeat split.
Qed.

(** With no quotes, whatever events arrive: the text stays the fallback
    message, the credit stays as loaded, no callback is ever scheduled,
    no draw is ever made and no handler throws. *)
Theorem empty_session (random : nat -> Float.unit_double) (fuel : nat)
  (QUOTES_DATA : option collection) (today : utc_date) (qt qc dl : element)
  (evs : list event) (ev : event) :
  no_data QUOTES_DATA ->
  let st := session random fuel QUOTES_DATA today qt qc dl evs in
  quoteText st = fallback qt /\ quoteCredit st = qc /\
  timers st = [] /\ frames st = [] /\ randomDraws st = 0%nat /\
  fst (handle random fuel ev st) = Return tt.
Proof.
  intros Hno. cbv zeta. unfold session.
  rewrite (script_no_data _ today qt qc dl Hno). cbn [snd].
  assert (H : empty_state qt qc (after random fuel evs (empty_page qt qc dl))).
  { assert (H0 : empty_state qt qc (empty_page qt qc dl))
      by (repeat split).
    revert H0. generalize (empty_page qt qc dl).
    induction evs as [|e evs IH]; intros st Hst; [exact Hst|].
    rewrite after_cons. apply IH.
    apply (handle_empty_state random fuel qt qc e st Hst). }
  destruct (handle_empty_state random fuel qt qc ev _ H) as [_ Hret].
  destruct H as (_ & _ & Ht & Hf & Hqt & Hqc & Hd). auto 10.
Qed.

Lemma empty_session_witness :
  let st := session quarters 20 None sample_today blank blank blank
              [Keydown space_on_body; Click; TimerFires] in
  quoteText st = fallback blank /\ quoteCredit st = blank /\
  timers st = [] /\ frames st = [] /\ randomDraws st = 0%nat /\
  fst (handle quarters 20 (Keydown space_on_body) st) = Return tt.
Proof.
  apply (empty_session quarters 20 None sample_today blank blank blank
           [Keydown space_on_body; Click; TimerFires]
           (Keydown space_on_body)).
  left. reflexivity.
Defined.

(** A shuffle on a page that shows a quote text [t], over more than one
    quote: it returns, and the quote it schedules has a text other than
    [t] unless 20 draws were made. *)
Theorem onShuffle_avoids_shown (random : nat -> Float.unit_double)
  (fuel : nat) (st : page) (t : jsstring) :
  textContent (quoteText st) = quoted t ->
  (20 <= fuel)%nat -> all_present (quotes st) = true -> 1 < length_of st ->
  exists (idx : Z) (quote : Quote) (d : nat),
    onShuffle random fuel st = (Return tt, shuffled st d (Some quote)) /\
    getIndex (quotes st) (Num idx) = Some quote /\
    (1 <= d <= 20)%nat /\
    (text quote = t -> d = 20%nat).
Proof.
  intros Htext Hfuel Hall Hlen. rewrite onShuffle_unfold. cbv zeta.
  rewrite Htext, slice_1_m1_quoted.
  set (st1 := set_dailyLabel _ (set_isDaily false st)).
  rewrite getRandomIndex_unfold. cbv zeta.
  set (st0 := set_selectorCalls _ st1).
  change (length_of st1) with (length_of st).
  destruct (length_of st <=? 1) eqn:Elen; [apply Z.leb_le in Elen; lia|].
  assert (Hlen0 : 0 < length_of st0)
    by (change (length_of st0) with (length_of st); lia).
  rewrite (randomLoop_fuel random fuel t st0 Hlen0 Hfuel).
  destruct (randomLoop_post random 20 t 0 st0 Hlen0)
    as (d & Hd1 & Hd20 & Hst & Hres); [lia | reflexivity |].
  destruct (randomLoop random 20 t 0 st0) as [[idx | e |] st2];
    cbn [fst snd] in Hres, Hst.
  - destruct Hres as (Hi & quote & Hq & Hq20).
    exists idx, quote, d. subst st2.
    split; [|split; [exact Hq | split; [lia | intros E; specialize (Hq20 E); lia]]].
    rewrite displayQuote_unfold. cbn [quotes set_randomDraws].
    rewrite Hq. reflexivity.
  - change (quotes st0) with (quotes st) in Hres. congruence.
  - contradiction.
Qed.

Lemma onShuffle_avoids_shown_witness :
  exists (idx : Z) (quote : Quote) (d : nat),
    onShuffle quarters 20
      (set_quoteText {| textContent := quoted (lit "one"); classList := [] |}
         (sample_page sample_quotes))
    = (Return tt,
       shuffled
         (set_quoteText
            {| textContent := quoted (lit "one"); classList := [] |}
            (sample_page sample_quotes)) d (Some quote)) /\
    getIndex sample_quotes (Num idx) = Some quote /\
    (1 <= d <= 20)%nat /\
    (text quote = lit "one" -> d = 20%nat).
Proof.
  apply (onShuffle_avoids_shown quarters 20
           (set_quoteText
              {| textContent := quoted (lit "one"); classList := [] |}
              (sample_page sample_quotes)) (lit "one")).
  - reflexivity.
  - lia.
  - reflexivity.
  - reflexivity.
Defined.

(** ** The space key and the button *)

Lemma randomLoop_defaultPrevented (random : nat -> Float.unit_double)
  (b : bool) (n : nat) :
  forall (currentText : jsstring) (attempts : Z) (st : page),
    randomLoop random n currentText attempts (set_defaultPrevented b st)
    = (fst (randomLoop random n currentText attempts st),
       set_defaultPrevented b
         (snd (randomLoop random n currentText attempts st))).
Proof.
  induction n as [|n IH]; intros cur attempts st; [reflexivity|].
  rewrite !randomLoop_S. cbv zeta.
  change (length_of (set_defaultPrevented b st)) with (length_of st).
  change (randomDraws (set_defaultPrevented b st)) with (randomDraws st).
  change (quotes (set_defaultPrevented b st)) with (quotes st).
  destruct (getIndex _ _) as [quote|]; [|reflexivity].
  destruct (string_eqb _ _ && _); [|reflexivity].
  apply (IH cur (attempts + 1) (set_randomDraws (S (randomDraws st)) st)).
Qed.

Lemma onShuffle_defaultPrevented (random : nat -> Float.unit_double)
  (fuel : nat) (b : bool) (st : page) :
  onShuffle random fuel (set_defaultPrevented b st)
  = (fst (onShuffle random fuel st),
     set_defaultPrevented b (snd (onShuffle random fuel st))).
Proof.
  rewrite !onShuffle_unfold. cbv zeta.
  rewrite !getRandomIndex_unfold. cbv zeta.
  change (textContent (quoteText (set_defaultPrevented b st)))
    with (textContent (quoteText st)).
  set (cur := slice _ 1 (-1)).
  set (s0 := set_selectorCalls _
               (set_dailyLabel (set_textContent (lit "random") (dailyLabel st))
                  (set_isDaily false st))).
  change (length_of
            (set_dailyLabel
               (set_textContent (lit "random")
                  (dailyLabel (set_defaultPrevented b st)))
               (set_isDaily false (set_defaultPrevented b st))))
    with (length_of s0).
  change (length_of
            (set_dailyLabel
               (set_textContent (lit "random") (dailyLabel st))
               (set_isDaily false st)))
    with (length_of s0).
  match goal with
  | |- context [set_selectorCalls ?c
                  (set_dailyLabel ?l
                     (set_isDaily false (set_defaultPrevented b st)))] =>
      change (set_selectorCalls c
                (set_dailyLabel l
                   (set_isDaily false (set_defaultPrevented b st))))
        with (set_defaultPrevented b s0)
  end.
  destruct (length_of s0 <=? 1).
  - rewrite !displayQuote_unfold.
    change (quotes (set_defaultPrevented b s0)) with (quotes s0).
    destruct (getIndex (quotes s0) (Num 0)); reflexivity.
  - rewrite randomLoop_defaultPrevented.
    destruct (randomLoop random fuel cur 0 s0) as [[idx | e |] st2];
      cbn [fst snd]; [|reflexivity|reflexivity].
    rewrite !displayQuote_unfold.
    change (quotes (set_defaultPrevented b st2)) with (quotes st2).
    destruct (getIndex (quotes st2) (Num idx)); reflexivity.
Qed.

(** On a page with both listeners registered, the space key pressed on
    the body does what a click on the button does: same outcome, same
    page, but for the default action of the key being prevented. *)
Theorem keydown_space_as_click (random : nat -> Float.unit_double)
  (fuel : nat) (e : keyboard_event) (st : page) :
  key e = lit " " -> targetIsBody e = true ->
  keydownListener st = true -> shuffleClickListener st = true ->
  keydown random fuel e st
  = (fst (click random fuel st),
     set_defaultPrevented true (snd (click random fuel st))).
Proof.
  intros Hk Ht Hkl Hcl.
  unfold keydown, click, bind at 1 2, modify, get.
  cbn [keydownListener set_defaultPrevented]. rewrite Hkl.
  unfold keydownHandler. rewrite Hk, Ht.
  change (string_eqb (lit " ") (lit " ") && true) with true. cbv iota.
  unfold bind at 1, modify.
  change (set_defaultPrevented true (set_defaultPrevented false st))
    with (set_defaultPrevented true st).
  rewrite onShuffle_defaultPrevented.
  unfold bind. cbn [fst snd]. rewrite Hcl. reflexivity.
Qed.

Lemma keydown_space_as_click_witness :
  keydown quarters 20 space_on_body
    (daily_page sample_quotes (sample_quote "one") blank blank blank)
  = (fst (click quarters 20
            (daily_page sample_quotes (sample_quote "one")
               blank blank blank)),
     set_defaultPrevented true
       (snd (click quarters 20
               (daily_page sample_quotes (sample_quote "one")
                  blank blank blank)))).
Proof.
  apply (keydown_space_as_click quarters 20 space_on_body
           (daily_page sample_quotes (sample_quote "one")
              blank blank blank));
    reflexivity.
Defined.

(** Any other key, or the space key with the focus elsewhere than on the
    body, does nothing: no selector runs, the page is unchanged and the
    default action of the key is not prevented. *)
Theorem keydown_ignored (random : nat -> Float.unit_double) (fuel : nat)
  (e : keyboard_event) (st : page) :
  key e <> lit " " \/ targetIsBody e = false ->
  keydown random fuel e st = (Return tt, set_defaultPrevented false st).
Proof.
  intros Hne. unfold keydown, bind, modify, get.
  cbn [keydownListener set_defaultPrevented].
  destruct (keydownListener st); [|reflexivity].
  unfold keydownHandler.
  assert (E : string_eqb (key e) (lit " ") && targetIsBody e = false).
  { destruct Hne as [H | H].
    - apply string_eqb_neq in H. rewrite H. reflexivity.
    - rewrite H. apply andb_false_r. }
  rewrite E. reflexivity.
Qed.

Lemma keydown_ignored_witness :
  keydown quarters 20 {| key := lit "a"; targetIsBody := true |}
    (sample_page sample_quotes)
  = (Return tt, set_defaultPrevented false (sample_page sample_quotes)) /\
  keydown quarters 20 {| key := lit " "; targetIsBody := false |}
    (sample_page sample_quotes)
  = (Return tt, set_defaultPrevented false (sample_page sample_quotes)).
Proof.
  split.
  - apply (keydown_ignored quarters 20
             {| key := lit "a"; targetIsBody := true |}
             (sample_page sample_quotes)).
    left. discriminate.
  - apply (keydown_ignored quarters 20
             {| key := lit " "; targetIsBody := false |}
             (sample_page sample_quotes)).
    right. reflexivity.
Defined.

Lemma slice_quoted_witness :
  slice (quoted (lit "one")) 1 (-1) = lit "one" /\
  slice (lit "ab") 1 (-1) = [].
Proof.
  destruct (slice_quoted (lit "one")) as [H1 H2].
  split; [exact H1 | apply (H2 (lit "ab")); cbn; lia].
Defined.

Lemma session_mode_witness :
  isDaily
    (after quarters 20 [TimerFires; FrameFires]
       (session quarters 20 (Some sample_quotes) sample_today
          blank blank blank [Click]))
  = false.
Proof.
  destruct (session_mode quarters 20 (Some sample_quotes) sample_today
              blank blank blank [Click]) as [_ H].
  apply (H [TimerFires; FrameFires]). vm_compute. reflexivity.
Defined.
